(** * Offline certificate authority and JWT signing of the step CLI

    A shallow embedding of [command/ca/offline.go] (package [ca]) and of
    the [sign] command of package [jwt], with the properties of the
    specification proved over it.

    - Go values are modelled by records and inductive types; a Go map with
      string keys is a [gmap string _].
    - Everything outside of the two packages (file system, JSON decoding,
      the certificate authority, the JOSE primitives, the clock, the
      random source, sub-processes) is an oracle of the record [World].
    - Effects are threaded by the monad [M]: a trace of the calls made to
      the outside world, the number of clock readings and random draws so
      far, and the package-level [sharedContext].
    - A Go function ends with a value, with an [error], or with a run-time
      panic: the three constructors of [res]. *)

From Stdlib Require Import ZArith QArith_base Ascii String.
From Stdlib.Strings Require Import Byte.
From stdpp Require Import gmap strings list fin_maps.

Set Warnings "-register-all".
Local Open Scope string_scope.
Local Open Scope list_scope.
Local Open Scope Z_scope.

(* ===================================================================== *)
(** * Go values: errors, results, JSON                                    *)
(* ===================================================================== *)

(** The [errs] package of the CLI builds its usage errors from the names
    of the flags involved. *)
Inductive usageError : Type :=
| TooManyArguments
| RequiredOrFlag (flag1 flag2 : string)
| MutuallyExclusiveFlags (flag1 flag2 : string)
| RequiredWithFlag (flag required : string).

(** Go [error] values: [errors.New]/[errors.Errorf] with the formatted
    text, [errors.Wrap]/[errors.Wrapf] around a cause, the errors of the
    [errs] package, and errors returned by the outside world. *)
Inductive error : Type :=
| ErrNew (msg : string)
| ErrWrap (cause : error) (msg : string)
| ErrUsage (u : usageError)
| ErrFile (cause : error) (filename : string)
| ErrExternal (msg : string).

Definition isUsageError (e : error) : bool :=
  match e with ErrUsage _ => true | _ => false end.

Inductive res (A : Type) : Type :=
| Ok (a : A)
| Err (e : error)
| Panic (msg : string).
Arguments Ok {A} a.
Arguments Err {A} e.
Arguments Panic {A} msg.

Definition isOk {A} (r : res A) : bool :=
  match r with Ok _ => true | _ => false end.

(** Decoded JSON values ([interface{}] as produced by [encoding/json]).
    Numbers are rationals: every [float64] and every [int64] is one. *)
Inductive json : Type :=
| JNull
| JBool (b : bool)
| JNum (q : Q)
| JStr (s : string)
| JArr (l : list json)
| JObj (fields : list (string * json)).

(** [map[string]interface{}] *)
Abbreviation object := (gmap string json).

(** Go's [len(s) > 0] and [s == ""] on strings. *)
Definition nonEmpty (s : string) : bool := negb (String.eqb s "").

(* ===================================================================== *)
(** * Data model: the types of the packages the code imports              *)
(* ===================================================================== *)

(** [provisioner.Interface], with the variants the type switch of
    [GenerateToken] knows and one variant for every other implementation. *)
Module provisioner.

Record JWKData := {
  Name : string;
  KeyID : string;              (* prov.Key.KeyID *)
  EncryptedKey : string
}.

Record OIDCData := {
  ClientID : string;
  ClientSecret : string;
  ConfigurationEndpoint : string
}.

Inductive cloud : Type := CloudGCP | CloudAWS | CloudAzure.

Inductive Interface : Type :=
| JWK (p : JWKData)
| OIDC (p : OIDCData)
| GCP (DisableCustomSANs : bool)
| AWS (DisableCustomSANs : bool)
| Azure (DisableCustomSANs : bool)
| Other (typeName : string).

End provisioner.

Record x509Certificate := { cert_Raw : list byte }.

Module authority.

Record AuthConfig := { Provisioners : list provisioner.Interface }.

(** [authority.Config] as far as the package reads it. *)
Record Config := {
  Root : list string;
  IntermediateCert : string;
  DNSNames : list string;
  AuthorityConfig : option AuthConfig    (* a pointer: [None] is nil *)
}.

(** The authority built by [authority.New] from a configuration. *)
Record Authority := { auth_config : Config }.

Record RevokeOptions := {
  Serial : string;
  Reason : string;
  ReasonCode : Z;
  PassiveOnly : bool;
  MTLS : bool;
  Crt : option x509Certificate;
  OTT : string
}.

End authority.

Module api.

Record RevokeRequest := {
  Serial : string;
  OTT : string;
  ReasonCode : Z;
  Reason : string;
  Passive : bool
}.

Record RevokeResponse := { Status : string }.

End api.

(** [http.RoundTripper]: the code asserts [*http.Transport] and reads
    [tr.TLSClientConfig.Certificates[0].Certificate[0]].  A nil interface
    fails the assertion like any other implementation. *)
Module http.

Record tlsCertificate := { Certificate : list (list byte) }.
Record tlsConfig := { Certificates : list tlsCertificate }.
Record Transport := { TLSClientConfig : option tlsConfig }.

Inductive RoundTripper : Type :=
| IsTransport (tr : Transport)
| OtherRoundTripper.

End http.

(** [jose.JSONWebKey] *)
Record JSONWebKey := {
  Key : list byte;             (* the key material *)
  KeyID : string;
  Algorithm : string;
  Use : string;
  IsPublic : bool
}.

(** [jose.Option] values passed to the key parsers and to [Decrypt]. *)
Inductive joseOption : Type :=
| WithUIOptions
| WithUse (use : string)
| WithAlg (alg : string)
| WithKid (kid : string)
| WithSubtle (b : bool)
| WithPasswordFile (path : string).

(** [*cli.Context] of urfave/cli: the positional arguments and the flags
    that were set, with the accessors the code calls.  An accessor on a
    flag that is not set returns the zero value of its type. *)
Module cli.

Inductive flagValue : Type :=
| VString (s : string)
| VInt64 (n : Z)
| VStringSlice (l : list string)
| VBool (b : bool).

Record Context := {
  Args : list string;
  flags : gmap string flagValue
}.

Definition IsSet (ctx : Context) (name : string) : bool :=
  match flags ctx !! name with Some _ => true | None => false end.

Definition String (ctx : Context) (name : string) : string :=
  match flags ctx !! name with Some (VString s) => s | _ => "" end.

Definition Int64 (ctx : Context) (name : string) : Z :=
  match flags ctx !! name with Some (VInt64 n) => n | _ => 0 end.

Definition StringSlice (ctx : Context) (name : string) : list string :=
  match flags ctx !! name with Some (VStringSlice l) => l | _ => [] end.

Definition Bool (ctx : Context) (name : string) : bool :=
  match flags ctx !! name with Some (VBool b) => b | _ => false end.

End cli.

(* ===================================================================== *)
(** * The outside world, the trace and the monad                          *)
(* ===================================================================== *)

(** Calls that leave the two packages, in the order they are made. *)
Inductive event : Type :=
| EvReadFile (path : string)
| EvStdinStat
| EvStdinRead
| EvAuthorityNew (cfg : authority.Config)
| EvAuthorityRevoke (opts : authority.RevokeOptions)
| EvParseCertificate (asn1Data : list byte)
| EvSelect (n : nat)
| EvCommand (name : string) (args : list string)
| EvIdentityToken (c : provisioner.cloud) (subject caURL : string)
| EvDecrypt (data : string) (opts : list joseOption)
| EvParseKey (path : string) (opts : list joseOption)
| EvParseKeySet (path : string) (opts : list joseOption)
| EvNow
| EvRandInt (bound : Z)
| EvSign (alg : string)
| EvPrintln (line : string).

Record World := {
  (* files and standard input *)
  fs_ReadFile : string -> error + list byte;
  stdin_Stat : error + (Z * bool);      (* size, mode & os.ModeNamedPipe != 0 *)
  stdin_data : list byte;
  os_Args0 : string;
  cmd_Output : string -> list string -> (error + string) * string;
  (* encoding/json *)
  json_Unmarshal_Config : list byte -> error + authority.Config;
  json_Unmarshal_JWK : list byte -> error + JSONWebKey;
  json_Decode : list byte -> error + object;
  json_Marshal : object -> error + list byte;
  (* the certificate authority and crypto/x509 *)
  authority_New : authority.Config -> option error;
  authority_Revoke : authority.Authority -> authority.RevokeOptions -> option error;
  x509_ParseCertificate : list byte -> error + x509Certificate;
  (* interactive selection, cloud identity documents *)
  ui_Select : list provisioner.Interface -> error + nat;
  cloud_GetIdentityToken : provisioner.cloud -> string -> string -> error + string;
  (* JOSE primitives *)
  jose_Decrypt : string -> list joseOption -> error + list byte;
  jose_ParseKey : string -> list joseOption -> error + JSONWebKey;
  jose_ParseKeySet : string -> list joseOption -> error + JSONWebKey;
  jose_ValidateJWK : JSONWebKey -> option error;
  jose_NewSigner : string -> list byte -> option error;
  jose_sign : string -> list byte -> list byte -> error + list byte;
  (* the n-th reading of the wall clock, in nanoseconds since the epoch *)
  clock : nat -> Z;
  (* the n-th draw of crypto/rand below a bound *)
  rand_Int : nat -> Z -> error + Z
}.

Record state := {
  st_trace : list event;
  st_ticks : nat;                  (* clock readings so far *)
  st_draws : nat;                  (* random draws so far *)
  st_DisableCustomSANs : bool      (* sharedContext.DisableCustomSANs *)
}.

Definition initial : state :=
  {| st_trace := []; st_ticks := 0; st_draws := 0; st_DisableCustomSANs := false |}.

Definition M (A : Type) : Type := state -> res A * state.

Definition ret {A} (a : A) : M A := fun s => (Ok a, s).
Definition raise {A} (e : error) : M A := fun s => (Err e, s).
Definition panic {A} (msg : string) : M A := fun s => (Panic msg, s).

Definition bind {A B} (m : M A) (k : A -> M B) : M B :=
  fun s =>
    match m s with
    | (Ok a, s') => k a s'
    | (Err e, s') => (Err e, s')
    | (Panic msg, s') => (Panic msg, s')
    end.

Declare Scope go_scope.
Delimit Scope go_scope with go.
Notation "x <- c ;; k" := (bind c (fun x => k))
  (at level 20, c at level 99, k at level 200, only parsing) : go_scope.
Notation "c ;; k" := (bind c (fun _ => k))
  (at level 100, k at level 200, right associativity, only parsing) : go_scope.
Local Open Scope go_scope.

Definition emit (e : event) : M unit :=
  fun s => (Ok tt, {| st_trace := st_trace s ++ [e]; st_ticks := st_ticks s;
                      st_draws := st_draws s;
                      st_DisableCustomSANs := st_DisableCustomSANs s |}).

(** An outside call that returns a value or an error. *)
Definition call {A} (e : event) (r : error + A) : M A :=
  emit e ;; match r with inl err => raise err | inr a => ret a end.

(** An outside call that returns only an error (nil on success). *)
Definition callErr (e : event) (r : option error) : M unit :=
  emit e ;; match r with Some err => raise err | None => ret tt end.

(** [err] handling of the form [if err != nil { return nil, wrap(err) }]. *)
Definition wrapErr {A} (f : error -> error) (m : M A) : M A :=
  fun s =>
    match m s with
    | (Err e, s') => (Err (f e), s')
    | r => r
    end.

(** [time.Now()]: the wall clock in nanoseconds since the Unix epoch. *)
Definition time_Now (w : World) : M Z :=
  fun s => (Ok (clock w (st_ticks s)),
            {| st_trace := st_trace s ++ [EvNow]; st_ticks := S (st_ticks s);
               st_draws := st_draws s;
               st_DisableCustomSANs := st_DisableCustomSANs s |}).

(** [rand.Int(rand.Reader, bound)] *)
Definition rand_Int_below (w : World) (bound : Z) : M Z :=
  fun s =>
    let s' := {| st_trace := st_trace s ++ [EvRandInt bound]; st_ticks := st_ticks s;
                 st_draws := S (st_draws s);
                 st_DisableCustomSANs := st_DisableCustomSANs s |} in
    match rand_Int w (st_draws s) bound with
    | inl e => (Err e, s')
    | inr n => (Ok n, s')
    end.

Definition set_DisableCustomSANs (b : bool) : M unit :=
  fun s => (Ok tt, {| st_trace := st_trace s; st_ticks := st_ticks s;
                      st_draws := st_draws s; st_DisableCustomSANs := b |}).

Definition lift {A} (r : error + A) : M A :=
  match r with inl err => raise err | inr a => ret a end.

Definition liftRes {A} (r : res A) : M A := fun s => (r, s).

(** Running a computation from a state: its result and its final state. *)
Definition result {A} (m : M A) (s : state) : res A := fst (m s).
Definition final {A} (m : M A) (s : state) : state := snd (m s).
Definition trace {A} (m : M A) (s : state) : list event := st_trace (snd (m s)).

(* ===================================================================== *)
(** * The rest of the outside world                                       *)
(* ===================================================================== *)

(** [api.SignRequest] and [api.SignResponse]. *)
Module signapi.

Record SignRequest := {
  CsrPEM : list byte;          (* req.CsrPEM.CertificateRequest *)
  OTT : string;
  NotBefore : Z;
  NotAfter : Z
}.

Record SignResponse := {
  ServerPEM : x509Certificate;
  CaPEM : x509Certificate;
  TLSOptions : list string
}.

End signapi.

(** [provisioner.Options] and the opaque [provisioner.SignOption]. *)
Record signOptions := {
  so_NotBefore : Z;
  so_NotAfter : Z
}.

Inductive SignOption : Type := SignOpt (id : nat).

(** The oracles of the functions that the claims do not reach: PEM
    files, key pairs and certificate chains, the signing side of the
    authority, and the platform and the processes of package [exec]. *)
Record Services := {
  pemutil_ReadCertificate : string -> error + x509Certificate;
  pemutil_Read : string -> error + list byte;
  pemutil_SerializeCertificate : x509Certificate -> error + list byte;
  pemutil_SerializeKey : list byte -> error + list byte;
  pem_EncodeToMemory : list byte -> list byte;
  tls_X509KeyPair : list byte -> list byte -> option error;
  x509util_ReadCertPool : string -> error + list x509Certificate;
  x509_Verify : x509Certificate -> list x509Certificate -> list x509Certificate
                -> option error;
  authority_Authorize : authority.Authority -> string -> error + list SignOption;
  authority_Sign : authority.Authority -> list byte -> signOptions -> list SignOption
                   -> error + (x509Certificate * x509Certificate);
  authority_Renew : authority.Authority -> x509Certificate
                    -> error + (x509Certificate * x509Certificate);
  authority_GetTLSOptions : authority.Authority -> list string;
  runtime_GOOS : string;
  cmd_Start : string -> list string -> option error
}.

(** A call that returns only an error and leaves no trace. *)
Definition liftErr (r : option error) : M unit :=
  match r with Some err => raise err | None => ret tt end.

(* ===================================================================== *)
(** * Library code used by the two packages                               *)
(* ===================================================================== *)

Definition newline : string := String (ascii_of_nat 10) "".

(** [strings.Join] and [strings.TrimSpace] (on ASCII white space). *)
Module strings.

Fixpoint Join (elems : list string) (sep : string) : string :=
  match elems with
  | [] => ""
  | [e] => e
  | e :: rest => e +:+ sep +:+ Join rest sep
  end.

Definition isSpace (c : ascii) : bool :=
  let n := nat_of_ascii c in
  ((9 <=? n)%nat && (n <=? 13)%nat) || (n =? 32)%nat.

Fixpoint trimLeft (s : string) : string :=
  match s with
  | String c s' => if isSpace c then trimLeft s' else s
  | EmptyString => EmptyString
  end.

Definition TrimSpace (s : string) : string :=
  String.rev (trimLeft (String.rev (trimLeft s))).


Fixpoint Contains (s : string) (c : ascii) : bool :=
  match s with
  | EmptyString => false
  | String d s' => Ascii.eqb d c || Contains s' c
  end.

End strings.

(** [base64.RawURLEncoding.EncodeToString]: RFC 4648, URL-safe alphabet,
    no padding.  The segments of a compact JWS are encoded with it. *)
Module base64.

Definition alphabet : string :=
  "ABCDEFGHIJKLMNOPQRSTUVWXYZabcdefghijklmnopqrstuvwxyz0123456789-_".

Definition digit (n : N) : ascii :=
  match String.get (N.to_nat (n mod 64)) alphabet with
  | Some c => c
  | None => "A"%char
  end.

Fixpoint EncodeToString (src : list byte) : string :=
  match src with
  | [] => EmptyString
  | [a] =>
      let x := Byte.to_N a in
      String (digit (x / 4)) (String (digit ((x mod 4) * 16)) EmptyString)
  | [a; b] =>
      let x := Byte.to_N a in
      let y := Byte.to_N b in
      String (digit (x / 4))
        (String (digit ((x mod 4) * 16 + y / 16))
           (String (digit ((y mod 16) * 4)) EmptyString))
  | a :: b :: c :: rest =>
      let x := Byte.to_N a in
      let y := Byte.to_N b in
      let z := Byte.to_N c in
      String (digit (x / 4))
        (String (digit ((x mod 4) * 16 + y / 16))
           (String (digit ((y mod 16) * 4 + z / 64))
              (String (digit (z mod 64)) (EncodeToString rest))))
  end%N.

End base64.

(** [exec.Step] of src/exec/exec.go: runs the program itself with the
    given arguments and returns its standard output. *)
Module exec.

Definition Step (w : World) (args : list string) : M string :=
  let name := os_Args0 w in
  emit (EvCommand name args) ;;
  match cmd_Output w name args with
  | (inl err, stderr) =>
      raise (ErrWrap err ("error running " +:+ name +:+ " " +:+
                          strings.Join args " " +:+ ":" +:+ newline +:+ stderr))
  | (inr out, _) => ret out
  end.

(** [exec.Command], lines 111-120: like [Step], for any program. *)
Definition Command (w : World) (name : string) (args : list string) : M string :=
  emit (EvCommand name args) ;;
  match cmd_Output w name args with
  | (inl err, stderr) =>
      raise (ErrWrap err ("error running " +:+ name +:+ " " +:+
                          strings.Join args " " +:+ ":" +:+ newline +:+ stderr))
  | (inr out, _) => ret out
  end.

(** [exec.OpenInBrowser], lines 81-95: the switch on [runtime.GOOS], then
    [cmd.Start].  [errors.WithStack] keeps the error and its message. *)
Definition OpenInBrowser (sv : Services) (url : string) : M unit :=
  let goos := runtime_GOOS sv in
  let start (name : string) (args : list string) : M unit :=
    callErr (EvCommand name args) (cmd_Start sv name args) in
  if String.eqb goos "darwin" then start "open" [url]
  else if String.eqb goos "linux" then start "xdg-open" [url]
  else if String.eqb goos "windows" then
    start "rundll32" ["url.dll,FileProtocolHandler"; url]
  else raise (ErrNew ("unsupported platform '" +:+ goos +:+ "'")).






End exec.

(** [randutil.Hex]: a string of the given length over the lower-case
    hexadecimal digits, each drawn from [crypto/rand]. *)
Module randutil.

Definition hexDigits : string := "0123456789abcdef".

Definition pick (chars : string) (n : Z) : ascii :=
  match String.get (Z.to_nat n) chars with
  | Some c => c
  | None => "0"%char
  end.

Fixpoint String' (w : World) (length : nat) (chars : string) : M string :=
  match length with
  | O => ret EmptyString
  | S k =>
      num <- wrapErr (fun e => ErrWrap e "error creating random number")
               (rand_Int_below w (Z.of_nat (String.length chars))) ;;
      rest <- String' w k chars ;;
      ret (String (pick chars num) rest)
  end.

Definition Hex (w : World) (length : nat) : M string :=
  String' w length hexDigits.

End randutil.

(** The JOSE layer ([jose] of the CLI over go-jose): numeric dates, the
    registered claims, signers and the token builder.  The cryptography
    itself is an oracle of the world. *)
Module jose.

(** [*jose.NumericDate]: seconds since the epoch; [None] is nil. *)
Abbreviation NumericDate := (option Z).

Definition nanosecond : Z := 1000000000.

(** The zero [time.Time] (January 1, year 1, 00:00 UTC). *)
Definition zeroTime : Z := -62135596800 * nanosecond.

(** [jose.UnixNumericDate]: nil for 0, for backward compatibility. *)
Definition UnixNumericDate (s : Z) : NumericDate :=
  if s =? 0 then None else Some s.

(** [jose.NewNumericDate]: nil for the zero time. *)
Definition NewNumericDate (t : Z) : NumericDate :=
  if t =? zeroTime then None else Some (t / nanosecond).

(** The method [Time] of a numeric date: the zero time for nil. *)
Definition Time (n : NumericDate) : Z :=
  match n with
  | None => zeroTime
  | Some s => s * nanosecond
  end.

(** [time.Time.Before] *)
Definition Before (t u : Z) : bool := t <? u.

Record Claims := {
  Issuer : string;
  Subject : string;
  Audience : list string;
  Expiry : NumericDate;
  NotBefore : NumericDate;
  IssuedAt : NumericDate;
  ID : string
}.

Definition putString (k v : string) (m : object) : object :=
  if nonEmpty v then <[k := JStr v]> m else m.

Definition putDate (k : string) (d : NumericDate) (m : object) : object :=
  match d with
  | Some s => <[k := JNum (inject_Z s)]> m
  | None => m
  end.

Definition putAudience (aud : list string) (m : object) : object :=
  match aud with
  | [] => m
  | _ => <["aud" := JArr (JStr <$> aud)]> m
  end.

(** The JSON object of a [Claims] struct: every member is [omitempty],
    and the audience is an array of strings. *)
Definition normalize (c : Claims) : object :=
  putString "iss" (Issuer c)
    (putString "sub" (Subject c)
       (putAudience (Audience c)
          (putDate "exp" (Expiry c)
             (putDate "nbf" (NotBefore c)
                (putDate "iat" (IssuedAt c)
                   (putString "jti" (ID c) ∅)))))).

Record SignerOptions := { ExtraHeaders : object }.

Definition WithHeader (k : string) (v : json) (so : SignerOptions) : SignerOptions :=
  {| ExtraHeaders := <[k := v]> (ExtraHeaders so) |}.

Definition WithType (typ : string) (so : SignerOptions) : SignerOptions :=
  WithHeader "typ" (JStr typ) so.

Record SigningKey := {
  sk_Algorithm : string;
  sk_Key : list byte
}.

Record Signer := {
  signer_key : SigningKey;
  signer_opts : SignerOptions
}.

Definition NewSigner (w : World) (sk : SigningKey) (so : SignerOptions) : M Signer :=
  match jose_NewSigner w (sk_Algorithm sk) (sk_Key sk) with
  | Some err => raise err
  | None => ret {| signer_key := sk; signer_opts := so |}
  end.

(** The protected header: the algorithm, then the extra headers. *)
Definition protected (sig : Signer) : object :=
  ExtraHeaders (signer_opts sig) ∪ {[ "alg" := JStr (sk_Algorithm (signer_key sig)) ]}.

(** The builder of [jose.Signed]: each [Claims] call merges a JSON
    object into the payload, and the members merged later win. *)
Record Builder := {
  b_signer : Signer;
  b_payload : object
}.

Definition Signed (sig : Signer) : Builder :=
  {| b_signer := sig; b_payload := ∅ |}.

Definition merge (m : object) (b : Builder) : Builder :=
  {| b_signer := b_signer b; b_payload := m ∪ b_payload b |}.

(** [Claims] on a struct and on a [map[string]interface{}]. *)
Definition ClaimsOf (c : Claims) (b : Builder) : Builder := merge (normalize c) b.
Definition ClaimsMap (m : object) (b : Builder) : Builder := merge m b.

(** A signed token before its compact serialization. *)
Record JWS := {
  jws_header : object;
  jws_claims : object;
  jws_protected : list byte;     (* the header as JSON text *)
  jws_raw : list byte;           (* the claims as JSON text *)
  jws_signature : list byte
}.

Definition compact (t : JWS) : string :=
  base64.EncodeToString (jws_protected t) +:+ "." +:+
  base64.EncodeToString (jws_raw t) +:+ "." +:+
  base64.EncodeToString (jws_signature t).

Definition signingInput (hdr raw : list byte) : list byte :=
  list_byte_of_string
    (base64.EncodeToString hdr +:+ "." +:+ base64.EncodeToString raw).

Definition Sign (w : World) (b : Builder) : M JWS :=
  let sig := b_signer b in
  let sk := signer_key sig in
  raw <- lift (json_Marshal w (b_payload b)) ;;
  hdr <- lift (json_Marshal w (protected sig)) ;;
  signature <- call (EvSign (sk_Algorithm sk))
                 (jose_sign w (sk_Algorithm sk) (sk_Key sk) (signingInput hdr raw)) ;;
  ret {| jws_header := protected sig; jws_claims := b_payload b;
         jws_protected := hdr; jws_raw := raw; jws_signature := signature |}.

Definition CompactSerialize (w : World) (b : Builder) : M string :=
  t <- Sign w b ;;
  ret (compact t).

Definition ParseKey (w : World) (filename : string) (opts : list joseOption)
  : M JSONWebKey :=
  call (EvParseKey filename opts) (jose_ParseKey w filename opts).

Definition ParseKeySet (w : World) (filename : string) (opts : list joseOption)
  : M JSONWebKey :=
  call (EvParseKeySet filename opts) (jose_ParseKeySet w filename opts).

Definition Decrypt (w : World) (data : string) (opts : list joseOption)
  : M (list byte) :=
  call (EvDecrypt data opts) (jose_Decrypt w data opts).

Definition ValidateJWK (w : World) (jwk : JSONWebKey) : M unit :=
  match jose_ValidateJWK w jwk with
  | Some err => raise err
  | None => ret tt
  end.

End jose.

(* ===================================================================== *)
(** * Package [ca]: command/ca/offline.go                                 *)
(* ===================================================================== *)

Module ca.

(** Modelled from the spec: the token-type constants [signType] and
    [revokeType] are declared in another file of the package; they are
    two distinct integers, and [Audience] treats every integer other
    than [revokeType] as its default case. *)
Definition signType : Z := 0.
Definition revokeType : Z := 1.

Record offlineCA := {
  authority : authority.Authority;
  config : authority.Config;
  configFile : string
}.

(** [len(config.AuthorityConfig.Provisioners) == 0], nil included. *)
Definition noProvisioners (config : authority.Config) : bool :=
  match authority.AuthorityConfig config with
  | None => true
  | Some ac => (length (authority.Provisioners ac) =? 0)%nat
  end.

(** [newOfflineCA], lines 41-66. *)
Definition newOfflineCA (w : World) (configFile : string) : M offlineCA :=
  b <- call (EvReadFile configFile) (fs_ReadFile w configFile) ;;
  config <- wrapErr (fun err => ErrWrap err ("error reading " +:+ configFile))
              (lift (json_Unmarshal_Config w b)) ;;
  if noProvisioners config then
    raise (ErrNew ("error parsing " +:+ configFile +:+ ": no provisioners found"))
  else
    callErr (EvAuthorityNew config) (authority_New w config) ;;
    ret {| authority := {| authority.auth_config := config |};
           config := config;
           configFile := configFile |}.

(** [c.config.DNSNames[0]]: indexing an empty slice panics. *)
Definition firstDNSName (c : offlineCA) : res string :=
  match authority.DNSNames (config c) !! 0%nat with
  | Some name => Ok name
  | None => Panic "index out of range [0] with length 0"
  end.

(** [Audience], lines 115-122: a switch on the token type, each case
    formatting the first DNS name. *)
Definition Audience (c : offlineCA) (tokType : Z) : res string :=
  if tokType =? revokeType then
    match firstDNSName c with
    | Ok name => Ok ("https://" +:+ name +:+ "/revoke")
    | Err e => Err e
    | Panic msg => Panic msg
    end
  else
    match firstDNSName c with
    | Ok name => Ok ("https://" +:+ name +:+ "/sign")
    | Err e => Err e
    | Panic msg => Panic msg
    end.

(** [CaURL], lines 125-127. *)
Definition CaURL (c : offlineCA) : res string :=
  match firstDNSName c with
  | Ok name => Ok ("https://" +:+ name)
  | Err e => Err e
  | Panic msg => Panic msg
  end.

(** [c.config.Root.First()]: the first root, or the empty string. *)
Definition Root (c : offlineCA) : string :=
  match authority.Root (config c) with
  | r :: _ => r
  | [] => ""
  end.

(** [Provisioners], lines 135-137. *)
Definition Provisioners (c : offlineCA) : res (list provisioner.Interface) :=
  match authority.AuthorityConfig (config c) with
  | Some ac => Ok (authority.Provisioners ac)
  | None => Panic "invalid memory address or nil pointer dereference"
  end.

(** The type assertion of [rt] to an HTTP transport, followed by
    [tr.TLSClientConfig.Certificates[0].Certificate[0]]. *)
Definition peerLeaf (rt : http.RoundTripper) : res (list byte) :=
  match rt with
  | http.OtherRoundTripper => Panic "interface conversion"
  | http.IsTransport tr =>
      match http.TLSClientConfig tr with
      | None => Panic "invalid memory address or nil pointer dereference"
      | Some cfg =>
          match http.Certificates cfg !! 0%nat with
          | None => Panic "index out of range [0] with length 0"
          | Some crt =>
              match http.Certificate crt !! 0%nat with
              | None => Panic "index out of range [0] with length 0"
              | Some asn1Data => Ok asn1Data
              end
          end
      end
  end.

(** The options of [Revoke], lines 188-193, with the three members the
    two modes set. *)
Definition revokeOptions (req : api.RevokeRequest) (mtls : bool)
    (crt : option x509Certificate) (ott : string) : authority.RevokeOptions :=
  {| authority.Serial := api.Serial req;
     authority.Reason := api.Reason req;
     authority.ReasonCode := api.ReasonCode req;
     authority.PassiveOnly := api.Passive req;
     authority.MTLS := mtls;
     authority.Crt := crt;
     authority.OTT := ott |}.

(** [Revoke], lines 186-216. *)
Definition Revoke (w : World) (c : offlineCA) (req : api.RevokeRequest)
    (rt : http.RoundTripper) : M api.RevokeResponse :=
  opts <- (if nonEmpty (api.OTT req) then
             ret (revokeOptions req false None (api.OTT req))
           else
             asn1Data <- liftRes (peerLeaf rt) ;;
             crt <- wrapErr (fun err => ErrWrap err "error parsing certificate")
                      (call (EvParseCertificate asn1Data)
                         (x509_ParseCertificate w asn1Data)) ;;
             ret (revokeOptions req true (Some crt) "")) ;;
  callErr (EvAuthorityRevoke opts) (authority_Revoke w (authority c) opts) ;;
  ret {| api.Status := "ok" |}.

(** Modelled from the spec: [provisionerPrompt] is defined in another
    file of the package.  Section 4.2: if exactly one provisioner is
    configured it is selected without prompting, otherwise the
    interactive chooser picks one; an empty list is a selection
    error. *)
Definition provisionerPrompt (w : World) (ctx : cli.Context)
    (provisioners : list provisioner.Interface) : M provisioner.Interface :=
  match provisioners with
  | [] => raise (ErrNew "no provisioner available")
  | [p] => ret p
  | _ =>
      i <- call (EvSelect (length provisioners)) (ui_Select w provisioners) ;;
      match provisioners !! i with
      | Some p => ret p
      | None => raise (ErrNew "no provisioner available")
      end
  end.

(** Modelled from the spec: [generateToken] is defined in another file
    of the package.  Section 4.3, steps 2 to 4: the claims are the
    issuer, the audience, the subject and the validity window; the
    token is signed with the decrypted key under the key's declared
    algorithm, with [kid] in its header, and serialized compactly.  The
    single audience is a bare string (section 3). *)
Definition generateToken (w : World) (typ : Z) (subject : string)
    (sans : list string) (kid issuer audience root : string)
    (notBefore notAfter : Z) (jwk : JSONWebKey) : M string :=
  let c := {| jose.Issuer := issuer;
              jose.Subject := subject;
              jose.Audience := [audience];
              jose.Expiry := jose.NewNumericDate notAfter;
              jose.NotBefore := jose.NewNumericDate notBefore;
              jose.IssuedAt := None;
              jose.ID := "" |} in
  let so := jose.WithHeader "kid" (JStr kid) {| jose.ExtraHeaders := ∅ |} in
  signer <- jose.NewSigner w
              {| jose.sk_Algorithm := Algorithm jwk; jose.sk_Key := Key jwk |} so ;;
  jose.CompactSerialize w
    (jose.ClaimsMap {[ "aud" := JStr audience ]}
       (jose.ClaimsOf c (jose.Signed signer))).

(** The three cloud cases of the type switch, lines 241-249. *)
Definition identityToken (w : World) (c : offlineCA) (kind : provisioner.cloud)
    (disableCustomSANs : bool) (subject : string) : M string :=
  set_DisableCustomSANs disableCustomSANs ;;
  url <- liftRes (CaURL c) ;;
  call (EvIdentityToken kind subject url)
    (cloud_GetIdentityToken w kind subject url).

(** [GenerateToken], lines 219-285. *)
Definition GenerateToken (w : World) (c : offlineCA) (ctx : cli.Context)
    (typ : Z) (subject : string) (sans : list string)
    (notBefore notAfter : Z) : M string :=
  let root := Root c in
  audience <- liftRes (Audience c typ) ;;
  provisioners <- liftRes (Provisioners c) ;;
  p <- provisionerPrompt w ctx provisioners ;;
  match p with
  | provisioner.OIDC p =>
      out <- exec.Step w
               ["oauth"; "--oidc"; "--bare";
                "--provider"; provisioner.ConfigurationEndpoint p;
                "--client-id"; provisioner.ClientID p;
                "--client-secret"; provisioner.ClientSecret p] ;;
      ret (strings.TrimSpace out)
  | provisioner.GCP d => identityToken w c provisioner.CloudGCP d subject
  | provisioner.AWS d => identityToken w c provisioner.CloudAWS d subject
  | provisioner.Azure d => identityToken w c provisioner.CloudAzure d subject
  | provisioner.Other typeName =>
      raise (ErrNew ("unknown provisioner type " +:+ typeName))
  | provisioner.JWK prov =>
      let kid := provisioner.KeyID prov in
      let issuer := provisioner.Name prov in
      let encryptedKey := provisioner.EncryptedKey prov in
      let passwordFile := cli.String ctx "password-file" in
      let opts := ([WithUIOptions] ++
                   (if nonEmpty passwordFile then [WithPasswordFile passwordFile]
                    else []))%list in
      if negb (nonEmpty encryptedKey) then
        raise (ErrNew ("provisioner '" +:+ kid +:+
                       "' does not have an 'encryptedKey' property"))
      else
        decrypted <- jose.Decrypt w encryptedKey opts ;;
        jwk <- wrapErr (fun err => ErrWrap err "error unmarshalling provisioning key")
                 (lift (json_Unmarshal_JWK w decrypted)) ;;
        generateToken w typ subject sans kid issuer audience root
          notBefore notAfter jwk
  end.

(** [VerifyClientCert], lines 70-112. *)
Definition VerifyClientCert (sv : Services) (c : offlineCA)
    (certFile keyFile : string) : M unit :=
  cert <- call (EvReadFile certFile) (pemutil_ReadCertificate sv certFile) ;;
  key <- call (EvReadFile keyFile) (pemutil_Read sv keyFile) ;;
  certPem <- lift (pemutil_SerializeCertificate sv cert) ;;
  keyPem <- lift (pemutil_SerializeKey sv key) ;;
  wrapErr (fun err => ErrWrap err "error loading x509 key pair")
    (liftErr (tls_X509KeyPair sv (pem_EncodeToMemory sv certPem)
                (pem_EncodeToMemory sv keyPem))) ;;
  rootPool <- call (EvReadFile (Root c)) (x509util_ReadCertPool sv (Root c)) ;;
  intermediatePool <-
    call (EvReadFile (authority.IntermediateCert (config c)))
      (x509util_ReadCertPool sv (authority.IntermediateCert (config c))) ;;
  wrapErr (fun err => ErrWrap err "failed to verify certificate")
    (liftErr (x509_Verify sv cert rootPool intermediatePool)) ;;
  ret tt.

(** [Sign], lines 142-160. *)
Definition Sign (sv : Services) (c : offlineCA) (req : signapi.SignRequest)
  : M signapi.SignResponse :=
  opts <- lift (authority_Authorize sv (authority c) (signapi.OTT req)) ;;
  let signOpts := {| so_NotBefore := signapi.NotBefore req;
                     so_NotAfter := signapi.NotAfter req |} in
  r <- lift (authority_Sign sv (authority c) (signapi.CsrPEM req) signOpts opts) ;;
  ret {| signapi.ServerPEM := fst r;
         signapi.CaPEM := snd r;
         signapi.TLSOptions := authority_GetTLSOptions sv (authority c) |}.

(** [Renew], lines 164-182. *)
Definition Renew (w : World) (sv : Services) (c : offlineCA)
    (rt : http.RoundTripper) : M signapi.SignResponse :=
  asn1Data <- liftRes (peerLeaf rt) ;;
  peer <- wrapErr (fun err => ErrWrap err "error parsing certificate")
            (call (EvParseCertificate asn1Data) (x509_ParseCertificate w asn1Data)) ;;
  r <- lift (authority_Renew sv (authority c) peer) ;;
  ret {| signapi.ServerPEM := fst r;
         signapi.CaPEM := snd r;
         signapi.TLSOptions := authority_GetTLSOptions sv (authority c) |}.

End ca.

(* ===================================================================== *)
(** * Package [jwt]: the [sign] command                                   *)
(* ===================================================================== *)

Module jwt.

(** [readPayload], the last function of the file. *)
Definition readPayload (w : World) (filename : string) : M object :=
  let decode (b : list byte) : M object :=
    wrapErr (fun err =>
               if String.eqb filename "" || String.eqb filename "-"
               then ErrWrap err "error decoding JSON from STDIN"
               else ErrWrap err ("error decoding JSON from " +:+ filename))
      (lift (json_Decode w b)) in
  if String.eqb filename "" then
    st <- wrapErr (fun err => ErrWrap err "error reading data")
            (call EvStdinStat (stdin_Stat w)) ;;
    if (fst st =? 0) && negb (snd st) then ret ∅
    else emit EvStdinRead ;; decode (stdin_data w)
  else if String.eqb filename "-" then
    emit EvStdinRead ;; decode (stdin_data w)
  else
    b <- wrapErr (fun err => ErrFile err filename)
           (call (EvReadFile filename) (fs_ReadFile w filename)) ;;
    decode b.

(** Read payload if provided: the switch on the number of arguments. *)
Definition readArgs (w : World) (ctx : cli.Context) : M object :=
  match cli.Args ctx with
  | [] => readPayload w ""
  | [a] => readPayload w a
  | _ => raise (ErrUsage TooManyArguments)
  end.

(** Validate key, jwks and kid: the switch on the three flags. *)
Definition validateKeyFlags (key jwks kid : string) : M unit :=
  if String.eqb key "" && String.eqb jwks "" then
    raise (ErrUsage (RequiredOrFlag "key" "jwks"))
  else if nonEmpty key && nonEmpty jwks then
    raise (ErrUsage (MutuallyExclusiveFlags "key" "jwks"))
  else if nonEmpty jwks && String.eqb kid "" then
    raise (ErrUsage (RequiredWithFlag "kid" "jwks"))
  else ret tt.

(** Add parse options. *)
Definition parseOptions (ctx : cli.Context) : list joseOption :=
  let alg := cli.String ctx "alg" in
  let kid := cli.String ctx "kid" in
  let passwordFile := cli.String ctx "password-file" in
  ([WithUse "sig"]
     ++ (if nonEmpty alg then [WithAlg alg] else [])
     ++ (if nonEmpty kid then [WithKid kid] else [])
     ++ (if cli.Bool ctx "subtle" then [WithSubtle true] else [])
     ++ (if nonEmpty passwordFile then [WithPasswordFile passwordFile] else []))%list.

(** Read key from --key or --jwks. *)
Definition readKey (w : World) (key jwks : string) (options : list joseOption)
  : M JSONWebKey :=
  if nonEmpty key then jose.ParseKey w key options
  else if nonEmpty jwks then jose.ParseKeySet w jwks options
  else raise (ErrUsage (RequiredOrFlag "key" "jwks")).

(** The checks on the key: not public, used for signatures, with an
    algorithm, and valid. *)
Definition checkKey (w : World) (jwk : JSONWebKey) : M unit :=
  if IsPublic jwk then raise (ErrNew "cannot use a public key for signing")
  else if negb (String.eqb (Use jwk) "sig") && negb (String.eqb (Use jwk) "") then
    raise (ErrNew ("invalid jwk use: found '" +:+ Use jwk +:+
                   "', expecting 'sig' (signature)"))
  else if String.eqb (Algorithm jwk) "" then
    raise (ErrNew "flag '--alg' is required with the given key")
  else jose.ValidateJWK w jwk.

(** Validate exp.  The clock is read only when the first two operands
    of the conjunction hold. *)
Definition validateExp (w : World) (ctx : cli.Context) : M unit :=
  if negb (cli.Bool ctx "subtle") && cli.IsSet ctx "exp" then
    now <- time_Now w ;;
    if jose.Before (jose.Time (jose.UnixNumericDate (cli.Int64 ctx "exp"))) now then
      raise (ErrNew "flag '--exp' must be in the future unless the '--subtle' flag is provided")
    else ret tt
  else ret tt.

(** Add claims. *)
Definition addClaims (w : World) (ctx : cli.Context) : M jose.Claims :=
  let c := {| jose.Issuer := cli.String ctx "iss";
              jose.Subject := cli.String ctx "sub";
              jose.Audience := cli.StringSlice ctx "aud";
              jose.Expiry := jose.UnixNumericDate (cli.Int64 ctx "exp");
              jose.NotBefore := jose.UnixNumericDate (cli.Int64 ctx "nbf");
              jose.IssuedAt := jose.UnixNumericDate (cli.Int64 ctx "iat");
              jose.ID := cli.String ctx "jti" |} in
  now <- time_Now w ;;
  let notBefore := match jose.NotBefore c with
                   | None => jose.NewNumericDate now
                   | Some d => Some d
                   end in
  let issuedAt := match jose.IssuedAt c with
                  | None => jose.NewNumericDate now
                  | Some d => Some d
                  end in
  id <- (if String.eqb (jose.ID c) "" && cli.IsSet ctx "jti" then
           wrapErr (fun err => ErrWrap err "error creating random jti")
             (randutil.Hex w 40)
         else ret (jose.ID c)) ;;
  ret {| jose.Issuer := jose.Issuer c;
         jose.Subject := jose.Subject c;
         jose.Audience := jose.Audience c;
         jose.Expiry := jose.Expiry c;
         jose.NotBefore := notBefore;
         jose.IssuedAt := issuedAt;
         jose.ID := id |}.

(** Validate recommended claims.  The cases of the switch are tried in
    order; the clock is read only when the last one is reached. *)
Definition validateClaims (w : World) (isSubtle : bool) (c : jose.Claims) : M unit :=
  if negb isSubtle then
    if (String.length (jose.Issuer c) =? 0)%nat then
      raise (ErrNew "flag '--iss' is required unless '--subtle' is used")
    else if (length (jose.Audience c) =? 0)%nat then
      raise (ErrNew "flag '--aud' is required unless '--subtle' is used")
    else if (String.length (jose.Subject c) =? 0)%nat then
      raise (ErrNew "flag '--sub' is required unless '--subtle' is used")
    else
      match jose.Expiry c with
      | None => raise (ErrNew "flag '--exp' is required unless '--subtle' is used")
      | Some _ =>
          now <- time_Now w ;;
          if jose.Before (jose.Time (jose.Expiry c)) now then
            raise (ErrNew "flag '--exp' must be in the future unless '--subtle' is used")
          else ret tt
      end
  else ret tt.

(** Sign: the signer and its header. *)
Definition signerOptions (ctx : cli.Context) (jwk : JSONWebKey) : jose.SignerOptions :=
  let so := jose.WithType "JWT" {| jose.ExtraHeaders := ∅ |} in
  if negb (cli.Bool ctx "no-kid") && negb (String.eqb (KeyID jwk) "") then
    jose.WithHeader "kid" (JStr (KeyID jwk)) so
  else so.

Definition newSigner (w : World) (ctx : cli.Context) (jwk : JSONWebKey) : M jose.Signer :=
  wrapErr (fun err => ErrWrap err "error creating JWT signer")
    (jose.NewSigner w
       {| jose.sk_Algorithm := Algorithm jwk; jose.sk_Key := Key jwk |}
       (signerOptions ctx jwk)).

(** Some implementations only accept "aud" as a string: the claim is
    overwritten for a single audience. *)
Definition audOverride (c : jose.Claims) : object :=
  match jose.Audience c with
  | [a] => {[ "aud" := JStr a ]}
  | _ => ∅
  end.

(** The first part of [signAction], up to the claims: the payload, the
    signing key and the claims with their defaults. *)
Definition prepare (w : World) (ctx : cli.Context)
  : M (object * JSONWebKey * jose.Claims) :=
  payload <- readArgs w ctx ;;
  let key := cli.String ctx "key" in
  let jwks := cli.String ctx "jwks" in
  let kid := cli.String ctx "kid" in
  validateKeyFlags key jwks kid ;;
  jwk <- readKey w key jwks (parseOptions ctx) ;;
  checkKey w jwk ;;
  validateExp w ctx ;;
  c <- addClaims w ctx ;;
  ret (payload, jwk, c).

(** [signAction] up to the builder
    [jose.Signed(signer).Claims(c).Claims(aud).Claims(payload)]. *)
Definition signBuilder (w : World) (ctx : cli.Context) : M jose.Builder :=
  x <- prepare w ctx ;;
  let '(payload, jwk, c) := x in
  validateClaims w (cli.Bool ctx "subtle") c ;;
  signer <- newSigner w ctx jwk ;;
  ret (jose.ClaimsMap payload
         (jose.ClaimsMap (audOverride c)
            (jose.ClaimsOf c (jose.Signed signer)))).

(** [signAction]: the builder is serialized and the token printed. *)
Definition signAction (w : World) (ctx : cli.Context) : M unit :=
  b <- signBuilder w ctx ;;
  raw <- wrapErr (fun err => ErrWrap err "error serializing JWT")
           (jose.CompactSerialize w b) ;;
  emit (EvPrintln raw).

End jwt.

(* ===================================================================== *)
(** * A concrete world                                                    *)
(* ===================================================================== *)

(** A world in which every outside call succeeds: the configuration file
    decodes to [cfg], a payload file decodes to [payload], no data is
    piped into standard input, the clock always reads [now], and the
    random source counts. *)
Module scenario.

Definition signingKey : JSONWebKey :=
  {| Key := []; KeyID := "key-1"; Algorithm := "ES256"; Use := "sig";
     IsPublic := false |}.

Definition world (cfg : authority.Config) (payload : object) (now : Z) : World :=
  {| fs_ReadFile := fun _ => inr [];
     stdin_Stat := inr (0, false);
     stdin_data := [];
     os_Args0 := "step";
     cmd_Output := fun _ _ => (inr "", "");
     json_Unmarshal_Config := fun _ => inr cfg;
     json_Unmarshal_JWK := fun _ => inr signingKey;
     json_Decode := fun _ => inr payload;
     json_Marshal := fun _ => inr (list_byte_of_string "{}");
     authority_New := fun _ => None;
     authority_Revoke := fun _ _ => None;
     x509_ParseCertificate := fun b => inr {| cert_Raw := b |};
     ui_Select := fun _ => inr 0%nat;
     cloud_GetIdentityToken := fun _ _ _ => inr "";
     jose_Decrypt := fun _ _ => inr [];
     jose_ParseKey := fun _ _ => inr signingKey;
     jose_ParseKeySet := fun _ _ => inr signingKey;
     jose_ValidateJWK := fun _ => None;
     jose_NewSigner := fun _ _ => None;
     jose_sign := fun _ _ input => inr (take 4 input);
     clock := fun _ => now;
     rand_Int := fun n bound => inr (Z.of_nat n mod bound) |}.

Definition admin : provisioner.Interface :=
  provisioner.JWK {| provisioner.Name := "admin";
                     provisioner.KeyID := "kid-admin";
                     provisioner.EncryptedKey := "eyJhbGciOiJQQkVTMi1IUzI1NitBMTI4S1cifQ" |}.

Definition caConfig (dns : list string) (ps : list provisioner.Interface)
  : authority.Config :=
  {| authority.Root := ["root_ca.crt"];
     authority.IntermediateCert := "intermediate_ca.crt";
     authority.DNSNames := dns;
     authority.AuthorityConfig := Some {| authority.Provisioners := ps |} |}.

Definition context (args : list string) (fl : list (string * cli.flagValue))
  : cli.Context :=
  {| cli.Args := args; cli.flags := list_to_map fl |}.

End scenario.

(** Services in which every call succeeds, on the given platform. *)
Module host.

Definition leaf : x509Certificate := {| cert_Raw := list_byte_of_string "leaf" |}.
Definition issuer : x509Certificate := {| cert_Raw := list_byte_of_string "issuer" |}.

Definition services (goos : string) : Services :=
  {| pemutil_ReadCertificate := fun _ => inr leaf;
     pemutil_Read := fun _ => inr (list_byte_of_string "key");
     pemutil_SerializeCertificate := fun crt => inr (cert_Raw crt);
     pemutil_SerializeKey := fun key => inr key;
     pem_EncodeToMemory := fun b => b;
     tls_X509KeyPair := fun _ _ => None;
     x509util_ReadCertPool := fun _ => inr [issuer];
     x509_Verify := fun _ _ _ => None;
     authority_Authorize := fun _ _ => inr [SignOpt 0];
     authority_Sign := fun _ _ _ _ => inr (leaf, issuer);
     authority_Renew := fun _ crt => inr (crt, issuer);
     authority_GetTLSOptions := fun _ => ["TLS1.2"];
     runtime_GOOS := goos;
     cmd_Start := fun _ _ => None |}.

(** The same services with a key that does not match the certificate. *)
Definition mismatched (goos : string) : Services :=
  {| pemutil_ReadCertificate := fun _ => inr leaf;
     pemutil_Read := fun _ => inr (list_byte_of_string "key");
     pemutil_SerializeCertificate := fun crt => inr (cert_Raw crt);
     pemutil_SerializeKey := fun key => inr key;
     pem_EncodeToMemory := fun b => b;
     tls_X509KeyPair := fun _ _ => Some (ErrExternal "tls: private key does not match public key");
     x509util_ReadCertPool := fun _ => inr [issuer];
     x509_Verify := fun _ _ _ => None;
     authority_Authorize := fun _ _ => inl (ErrExternal "token already used");
     authority_Sign := fun _ _ _ _ => inr (leaf, issuer);
     authority_Renew := fun _ crt => inr (crt, issuer);
     authority_GetTLSOptions := fun _ => ["TLS1.2"];
     runtime_GOOS := goos;
     cmd_Start := fun _ _ => None |}.

Definition offline (dns : list string) (ps : list provisioner.Interface)
  : ca.offlineCA :=
  {| ca.authority := {| authority.auth_config := scenario.caConfig dns ps |};
     ca.config := scenario.caConfig dns ps;
     ca.configFile := "ca.json" |}.

(** A transport whose client certificate is the given DER data. *)
Definition transport (asn1Data : list byte) : http.RoundTripper :=
  http.IsTransport
    {| http.TLSClientConfig :=
         Some {| http.Certificates := [{| http.Certificate := [asn1Data] |}] |} |}.

End host.

(* ===================================================================== *)
(** * Vocabulary of the properties                                        *)
(* ===================================================================== *)

(** The state after one more outside call. *)
Definition logged (e : event) (s : state) : state :=
  {| st_trace := st_trace s ++ [e]; st_ticks := st_ticks s;
     st_draws := st_draws s;
     st_DisableCustomSANs := st_DisableCustomSANs s |}.

(** The state after one more reading of the clock. *)
Definition ticked (s : state) : state :=
  {| st_trace := st_trace s ++ [EvNow]; st_ticks := S (st_ticks s);
     st_draws := st_draws s;
     st_DisableCustomSANs := st_DisableCustomSANs s |}.

(** [signs w ctx s t]: started in state [s], the sign command builds the
    token [t], signs it and prints its compact serialization. *)
Definition signs (w : World) (ctx : cli.Context) (s : state) (t : jose.JWS) : Prop :=
  exists b s1 s2,
    jwt.signBuilder w ctx s = (Ok b, s1) /\
    jose.Sign w b s1 = (Ok t, s2) /\
    jwt.signAction w ctx s = (Ok tt, logged (EvPrintln (jose.compact t)) s2).

(** The token of a run, when the run builds and signs one. *)
Definition runSign (w : World) (ctx : cli.Context) (s : state) : option jose.JWS :=
  match jwt.signBuilder w ctx s with
  | (Ok b, s1) =>
      match jose.Sign w b s1 with
      | (Ok t, _) => Some t
      | _ => None
      end
  | _ => None
  end.

Definition noToken : jose.JWS :=
  {| jose.jws_header := ∅; jose.jws_claims := ∅; jose.jws_protected := [];
     jose.jws_raw := []; jose.jws_signature := [] |}.

Definition tokenOf (w : World) (ctx : cli.Context) (s : state) : jose.JWS :=
  match runSign w ctx s with
  | Some t => t
  | None => noToken
  end.

(** A computation that reads neither the clock nor the random source. *)
Definition quiet {A} (m : M A) : Prop :=
  forall s, st_ticks (snd (m s)) = st_ticks s /\ st_draws (snd (m s)) = st_draws s.

(** Every event added to the trace satisfies [P]. *)
Definition emits {A} (P : event -> Prop) (m : M A) : Prop :=
  forall s e, e ∈ st_trace (snd (m s)) -> e ∈ st_trace s \/ P e.

(** The outside calls of [readPayload]: standard input, or the file when
    a file is named. *)
Definition payloadEvent (filename : string) (e : event) : Prop :=
  e = EvStdinStat \/ e = EvStdinRead \/
  (filename <> "" /\ filename <> "-" /\ e = EvReadFile filename).

(** The identifier is made of hexadecimal digits. *)
Definition isHexDigit (c : ascii) : bool :=
  strings.Contains randutil.hexDigits c.

Fixpoint allHex (s : string) : bool :=
  match s with
  | EmptyString => true
  | String c s' => isHexDigit c && allHex s'
  end.

(** A computation that leaves a component of the state as it is. *)
Definition keeps {X A} (f : state -> X) (m : M A) : Prop :=
  forall s, f (snd (m s)) = f s.

(** The events a computation adds to the trace. *)
Definition added {A} (m : M A) (s : state) : list event :=
  drop (length (st_trace s)) (st_trace (snd (m s))).

Definition isPrintln (e : event) : bool :=
  match e with EvPrintln _ => true | _ => false end.

(** The cloud provisioners, with their kind and their flag. *)
Definition cloudProvisioner (p : provisioner.Interface)
  : option (provisioner.cloud * bool) :=
  match p with
  | provisioner.GCP d => Some (provisioner.CloudGCP, d)
  | provisioner.AWS d => Some (provisioner.CloudAWS, d)
  | provisioner.Azure d => Some (provisioner.CloudAzure, d)
  | _ => None
  end.

(** The state after [sharedContext.DisableCustomSANs] is assigned. *)
Definition withDisableCustomSANs (b : bool) (s : state) : state :=
  {| st_trace := st_trace s; st_ticks := st_ticks s;
     st_draws := st_draws s; st_DisableCustomSANs := b |}.

(** The first and the last character of a string. *)
Definition firstChar (s : string) : option ascii :=
  match s with
  | String c _ => Some c
  | EmptyString => None
  end.

Fixpoint lastChar (s : string) : option ascii :=
  match s with
  | EmptyString => None
  | String c r => match lastChar r with Some d => Some d | None => Some c end
  end.

(** Neither end of the string is white space. *)
Definition trimmed (s : string) : Prop :=
  (forall c, firstChar s = Some c -> strings.isSpace c = false)
  /\ (forall c, lastChar s = Some c -> strings.isSpace c = false).

(** The lines printed so far. *)
Definition lines (s : state) : list event :=
  filter (fun e => isPrintln e = true) (st_trace s).

(** A component of the state that neither an outside call other than
    printing nor a reading of the clock changes. *)
Definition framed {X} (f : state -> X) : Prop :=
  (forall e s, isPrintln e = false -> f (logged e s) = f s)
  /\ (forall s, f (ticked s) = f s).

(* ===================================================================== *)
(** * Facts about the monad                                               *)
(* ===================================================================== *)

Section monad_facts.

Context {A B : Type}.
Implicit Types (m : M A) (k : A -> M B) (s : state).

Lemma bind_Ok m k s a s1 :
  m s = (Ok a, s1) -> bind m k s = k a s1.
Proof. intros H. unfold bind. now rewrite H. Qed.

Lemma bind_Err m k s e s1 :
  m s = (Err e, s1) -> bind m k s = (Err e, s1).
Proof. intros H. unfold bind. now rewrite H. Qed.

Lemma bind_Panic m k s msg s1 :
  m s = (Panic msg, s1) -> bind m k s = (Panic msg, s1).
Proof. intros H. unfold bind. now rewrite H. Qed.

Lemma bind_Ok_inv m k s b s' :
  bind m k s = (Ok b, s') ->
  exists a s1, m s = (Ok a, s1) /\ k a s1 = (Ok b, s').
Proof.
  unfold bind. destruct (m s) as [[a | e | msg] s1]; intros H.
  - now exists a, s1.
  - discriminate.
  - discriminate.
Qed.

Lemma wrapErr_Ok f m s a s1 :
  m s = (Ok a, s1) -> wrapErr f m s = (Ok a, s1).
Proof. intros H. unfold wrapErr. now rewrite H. Qed.

Lemma wrapErr_Ok_inv f m s a s1 :
  wrapErr f m s = (Ok a, s1) -> m s = (Ok a, s1).
Proof.
  unfold wrapErr. destruct (m s) as [[a' | e | msg] s2]; intros H;
    solve [assumption | discriminate].
Qed.

End monad_facts.

Lemma emit_run e s : emit e s = (Ok tt, logged e s).
Proof. reflexivity. Qed.

Lemma call_inr {A} e (r : error + A) a s :
  r = inr a -> call e r s = (Ok a, logged e s).
Proof. intros ->. reflexivity. Qed.

Lemma call_inl {A} e (r : error + A) err s :
  r = inl err -> call e r s = (Err err, logged e s).
Proof. intros ->. reflexivity. Qed.

Lemma call_Ok_inv {A} e (r : error + A) a s s' :
  call e r s = (Ok a, s') -> r = inr a /\ s' = logged e s.
Proof.
  destruct r as [err | a']; cbn; intros H; inversion H; auto.
Qed.

(* ===================================================================== *)
(** * The definitions on concrete inputs                                  *)
(* ===================================================================== *)

(** The test vectors of RFC 4648, without padding. *)
Example base64_rfc4648 :
  base64.EncodeToString <$>
    (list_byte_of_string <$> ["f"; "fo"; "foo"; "foob"; "fooba"; "foobar"])
  = ["Zg"; "Zm8"; "Zm9v"; "Zm9vYg"; "Zm9vYmE"; "Zm9vYmFy"].
Proof. reflexivity. Qed.

Example TrimSpace_output :
  strings.TrimSpace ("  eyJ.abc.def " +:+ newline) = "eyJ.abc.def".
Proof. reflexivity. Qed.

Example Audience_by_type :
  let c := {| ca.authority := {| authority.auth_config := scenario.caConfig ["ca.example.com"; "ca.internal"] [] |};
              ca.config := scenario.caConfig ["ca.example.com"; "ca.internal"] [];
              ca.configFile := "ca.json" |} in
  ca.Audience c ca.revokeType = Ok "https://ca.example.com/revoke"
  /\ ca.Audience c ca.signType = Ok "https://ca.example.com/sign"
  /\ ca.Audience c 7 = Ok "https://ca.example.com/sign"
  /\ ca.CaURL c = Ok "https://ca.example.com".
Proof. repeat split. Qed.

Example normalize_claims :
  let c := {| jose.Issuer := "issuer"; jose.Subject := ""; jose.Audience := ["a"];
              jose.Expiry := Some 60; jose.NotBefore := None;
              jose.IssuedAt := None; jose.ID := "" |} in
  jose.normalize c !! "iss" = Some (JStr "issuer")
  /\ jose.normalize c !! "sub" = None
  /\ jose.normalize c !! "aud" = Some (JArr [JStr "a"])
  /\ jose.normalize c !! "exp" = Some (JNum (inject_Z 60))
  /\ jose.normalize c !! "nbf" = None
  /\ size (jose.normalize c) = 3%nat.
Proof. repeat split. Qed.

(** The sign command on the command lines of the specification. *)
Example sign_without_key :
  result (jwt.signAction (scenario.world (scenario.caConfig [] []) ∅ 0)
            (scenario.context [] [])) initial
  = Err (ErrUsage (RequiredOrFlag "key" "jwks")).
Proof. reflexivity. Qed.

Example sign_with_too_many_arguments :
  result (jwt.signAction (scenario.world (scenario.caConfig [] []) ∅ 0)
            (scenario.context ["a.json"; "b.json"] [("key", cli.VString "key.pem")]))
    initial
  = Err (ErrUsage TooManyArguments).
Proof. reflexivity. Qed.

Example sign_with_past_expiry :
  result (jwt.signAction (scenario.world (scenario.caConfig [] []) ∅ (61 * jose.nanosecond))
            (scenario.context []
               [("key", cli.VString "key.pem"); ("iss", cli.VString "issuer");
                ("sub", cli.VString "subject"); ("aud", cli.VStringSlice ["a"]);
                ("exp", cli.VInt64 60)])) initial
  = Err (ErrNew "flag '--exp' must be in the future unless the '--subtle' flag is provided").
Proof. reflexivity. Qed.

Example sign_prints_three_parts :
  trace (jwt.signAction (scenario.world (scenario.caConfig [] []) ∅ 0)
           (scenario.context []
              [("key", cli.VString "key.pem"); ("iss", cli.VString "issuer");
               ("sub", cli.VString "subject"); ("aud", cli.VStringSlice ["a"]);
               ("exp", cli.VInt64 60)])) initial
  = [EvStdinStat; EvParseKey "key.pem" [WithUse "sig"]; EvNow; EvNow; EvNow;
     EvSign "ES256"; EvPrintln "e30.e30.ZTMwLg"].
Proof. vm_compute. reflexivity. Qed.

(* ===================================================================== *)
(** * Properties of package [ca]                                          *)
(* ===================================================================== *)

(** C3.  A configuration file that decodes to a configuration whose
    authority configuration is absent, or lists no provisioner, is
    refused by [newOfflineCA] with the error "no provisioners found";
    the only outside call made is the reading of the file, so
    [authority.New] is never called and no authority is constructed. *)
Theorem newOfflineCA_no_provisioners
    (w : World) (configFile : string) (b : list byte)
    (config : authority.Config) (s : state) :
  fs_ReadFile w configFile = inr b ->
  json_Unmarshal_Config w b = inr config ->
  (authority.AuthorityConfig config = None \/
   exists ac, authority.AuthorityConfig config = Some ac /\
              authority.Provisioners ac = []) ->
  result (ca.newOfflineCA w configFile) s
    = Err (ErrNew ("error parsing " +:+ configFile +:+ ": no provisioners found"))
  /\ trace (ca.newOfflineCA w configFile) s = st_trace s ++ [EvReadFile configFile]
  /\ (forall cfg, EvAuthorityNew cfg ∈ trace (ca.newOfflineCA w configFile) s ->
                  EvAuthorityNew cfg ∈ st_trace s).
Proof.
  intros Hread Hdec Hnone.
  assert (Hno : ca.noProvisioners config = true).
  { unfold ca.noProvisioners.
    destruct Hnone as [-> | (ac & -> & ->)]; reflexivity. }
  assert (Hrun : ca.newOfflineCA w configFile s
                 = (Err (ErrNew ("error parsing " +:+ configFile +:+
                                 ": no provisioners found")),
                    logged (EvReadFile configFile) s)).
  { unfold ca.newOfflineCA.
    rewrite (bind_Ok _ _ _ _ _ (call_inr _ _ _ s Hread)).
    unfold bind at 1, wrapErr, lift. rewrite Hdec. cbn.
    rewrite Hno. reflexivity. }
  unfold result, trace. rewrite Hrun. cbn.
  repeat split.
  intros cfg Hin. apply elem_of_app in Hin as [Hin | Hin]; [assumption |].
  apply list_elem_of_singleton in Hin. discriminate.
Qed.

Lemma newOfflineCA_no_provisioners_witness :
  let w := scenario.world (scenario.caConfig ["ca.example.com"] []) ∅ 0 in
  result (ca.newOfflineCA w "ca.json") initial
    = Err (ErrNew "error parsing ca.json: no provisioners found")
  /\ trace (ca.newOfflineCA w "ca.json") initial = [EvReadFile "ca.json"]
  /\ (forall cfg, EvAuthorityNew cfg ∈ trace (ca.newOfflineCA w "ca.json") initial ->
                  EvAuthorityNew cfg ∈ []).
Proof.
  intros w.
  apply (newOfflineCA_no_provisioners w "ca.json" []
           (scenario.caConfig ["ca.example.com"] []) initial).
  - reflexivity.
  - reflexivity.
  - right. eexists. split; reflexivity.
Defined.

Lemma firstDNSName_Ok (c : ca.offlineCA) :
  isOk (ca.firstDNSName c) = true <-> authority.DNSNames (ca.config c) <> [].
Proof.
  unfold ca.firstDNSName.
  destruct (authority.DNSNames (ca.config c)) as [| d ds]; cbn; split;
    intros H; try reflexivity; try discriminate; congruence.
Qed.

Lemma Audience_Ok (c : ca.offlineCA) (tokType : Z) :
  isOk (ca.Audience c tokType) = true <-> authority.DNSNames (ca.config c) <> [].
Proof.
  rewrite <- firstDNSName_Ok. unfold ca.Audience.
  destruct (tokType =? ca.revokeType); destruct (ca.firstDNSName c); reflexivity.
Qed.

Lemma CaURL_Ok (c : ca.offlineCA) :
  isOk (ca.CaURL c) = true <-> authority.DNSNames (ca.config c) <> [].
Proof.
  rewrite <- firstDNSName_Ok. unfold ca.CaURL.
  destruct (ca.firstDNSName c); reflexivity.
Qed.

(** C8.  [newOfflineCA] does not look at the DNS names: a configuration
    with at least one provisioner and no DNS name, which [authority.New]
    accepts, is loaded.  On the loaded value [Audience] and [CaURL] panic
    (index out of range); in general each of them returns exactly when
    the configuration has at least one DNS name. *)
Theorem dnsNames_not_checked_at_load
    (w : World) (configFile : string) (b : list byte)
    (config : authority.Config) (ac : authority.AuthConfig) (s : state) :
  fs_ReadFile w configFile = inr b ->
  json_Unmarshal_Config w b = inr config ->
  authority.AuthorityConfig config = Some ac ->
  authority.Provisioners ac <> [] ->
  authority.DNSNames config = [] ->
  authority_New w config = None ->
  let c := {| ca.authority := {| authority.auth_config := config |};
              ca.config := config;
              ca.configFile := configFile |} in
  result (ca.newOfflineCA w configFile) s = Ok c
  /\ (forall tokType, exists msg, ca.Audience c tokType = Panic msg)
  /\ (exists msg, ca.CaURL c = Panic msg)
  /\ (forall (c' : ca.offlineCA) tokType,
        isOk (ca.Audience c' tokType) = true <->
        authority.DNSNames (ca.config c') <> [])
  /\ (forall c' : ca.offlineCA,
        isOk (ca.CaURL c') = true <-> authority.DNSNames (ca.config c') <> []).
Proof.
  intros Hread Hdec Hac Hps Hdns Hnew c.
  assert (Hno : ca.noProvisioners config = false).
  { unfold ca.noProvisioners. rewrite Hac.
    destruct (authority.Provisioners ac); [congruence | reflexivity]. }
  split; [| split; [| split; [| split]]].
  - unfold result, ca.newOfflineCA.
    rewrite (bind_Ok _ _ _ _ _ (call_inr _ _ _ s Hread)).
    unfold bind at 1, wrapErr, lift. rewrite Hdec. cbn.
    rewrite Hno. unfold bind, callErr, emit. cbn. rewrite Hnew. reflexivity.
  - intros tokType. unfold ca.Audience, ca.firstDNSName. cbn. rewrite Hdns. cbn.
    destruct (tokType =? ca.revokeType); eexists; reflexivity.
  - unfold ca.CaURL, ca.firstDNSName. cbn. rewrite Hdns. cbn.
    eexists; reflexivity.
  - intros c' tokType. apply Audience_Ok.
  - intros c'. apply CaURL_Ok.
Qed.

Lemma dnsNames_not_checked_at_load_witness :
  let config := scenario.caConfig [] [scenario.admin] in
  let w := scenario.world config ∅ 0 in
  let c := {| ca.authority := {| authority.auth_config := config |};
              ca.config := config;
              ca.configFile := "ca.json" |} in
  result (ca.newOfflineCA w "ca.json") initial = Ok c
  /\ (forall tokType, exists msg, ca.Audience c tokType = Panic msg)
  /\ (exists msg, ca.CaURL c = Panic msg).
Proof.
  intros config w c.
  destruct (dnsNames_not_checked_at_load w "ca.json" [] config
              {| authority.Provisioners := [scenario.admin] |} initial)
    as (H1 & H2 & H3 & _).
  - reflexivity.
  - reflexivity.
  - reflexivity.
  - discriminate.
  - reflexivity.
  - reflexivity.
  - exact (conj H1 (conj H2 H3)).
Defined.

(** C6.  [Revoke] has two modes, chosen by the one-time token of the
    request.  With a non-empty token the authority is called with that
    token, [MTLS] false and no certificate.  With an empty token the leaf
    certificate of the transport is parsed and the authority is called
    with it, [MTLS] true and no token.  In both modes the fields of the
    request are copied, an error of the authority is returned as it is,
    and the response of a success is exactly [{Status: "ok"}]. *)
Theorem Revoke_modes
    (w : World) (c : ca.offlineCA) (req : api.RevokeRequest)
    (rt : http.RoundTripper) (s : state) :
  (api.OTT req <> "" ->
     let opts := {| authority.Serial := api.Serial req;
                    authority.Reason := api.Reason req;
                    authority.ReasonCode := api.ReasonCode req;
                    authority.PassiveOnly := api.Passive req;
                    authority.MTLS := false;
                    authority.Crt := None;
                    authority.OTT := api.OTT req |} in
     ca.Revoke w c req rt s
       = (match authority_Revoke w (ca.authority c) opts with
          | None => Ok {| api.Status := "ok" |}
          | Some err => Err err
          end, logged (EvAuthorityRevoke opts) s))
  /\ (api.OTT req = "" ->
      forall asn1Data crt,
        ca.peerLeaf rt = Ok asn1Data ->
        x509_ParseCertificate w asn1Data = inr crt ->
        let opts := {| authority.Serial := api.Serial req;
                       authority.Reason := api.Reason req;
                       authority.ReasonCode := api.ReasonCode req;
                       authority.PassiveOnly := api.Passive req;
                       authority.MTLS := true;
                       authority.Crt := Some crt;
                       authority.OTT := "" |} in
        ca.Revoke w c req rt s
          = (match authority_Revoke w (ca.authority c) opts with
             | None => Ok {| api.Status := "ok" |}
             | Some err => Err err
             end,
             logged (EvAuthorityRevoke opts) (logged (EvParseCertificate asn1Data) s)))
  /\ (forall resp s',
        ca.Revoke w c req rt s = (Ok resp, s') ->
        resp = {| api.Status := "ok" |} /\
        exists opts,
          last (st_trace s') = Some (EvAuthorityRevoke opts) /\
          authority_Revoke w (ca.authority c) opts = None /\
          authority.MTLS opts = negb (nonEmpty (api.OTT req)) /\
          authority.OTT opts = api.OTT req).
Proof.
  split; [| split].
  - intros Hott opts.
    assert (Hne : nonEmpty (api.OTT req) = true).
    { unfold nonEmpty. destruct (String.eqb_spec (api.OTT req) ""); [contradiction | reflexivity]. }
    subst opts. unfold ca.Revoke. rewrite Hne.
    unfold ca.revokeOptions, bind, callErr, emit, ret, raise, logged. cbn.
    destruct (authority_Revoke w (ca.authority c) _); reflexivity.
  - intros Hott asn1Data crt Hleaf Hparse opts.
    subst opts. unfold ca.Revoke, nonEmpty. rewrite Hott. cbn.
    unfold ca.revokeOptions, bind, callErr, call, wrapErr, liftRes, emit, ret,
      raise, logged. cbn.
    rewrite Hleaf. cbn. rewrite Hparse. cbn.
    destruct (authority_Revoke w (ca.authority c) _); reflexivity.
  - intros resp s' Hrun. unfold ca.Revoke in Hrun.
    apply bind_Ok_inv in Hrun as (opts & s1 & Hopts & Hrun).
    apply bind_Ok_inv in Hrun as ([] & s2 & Hcall & Hrun).
    inversion Hrun; subst resp s'; clear Hrun.
    split; [reflexivity |].
    exists opts.
    unfold callErr, bind, emit in Hcall. cbn in Hcall.
    destruct (authority_Revoke w (ca.authority c) opts) eqn:Hrev;
      cbn in Hcall; [discriminate |].
    inversion Hcall; subst s2; clear Hcall. cbn.
    split; [apply last_snoc |]. split; [reflexivity |].
    destruct (nonEmpty (api.OTT req)) eqn:Hne.
    + inversion Hopts; subst. cbn. auto.
    + apply bind_Ok_inv in Hopts as (asn1Data & s3 & _ & Hopts).
      apply bind_Ok_inv in Hopts as (crt & s4 & _ & Hopts).
      inversion Hopts; subst. cbn. split; [reflexivity |].
      unfold nonEmpty in Hne.
      destruct (String.eqb_spec (api.OTT req) ""); [congruence | discriminate].
Qed.

Lemma Revoke_modes_witness :
  let config := scenario.caConfig ["ca.example.com"] [scenario.admin] in
  let w := scenario.world config ∅ 0 in
  let c := {| ca.authority := {| authority.auth_config := config |};
              ca.config := config;
              ca.configFile := "ca.json" |} in
  let req := {| api.Serial := "1234"; api.OTT := "token"; api.ReasonCode := 1;
                api.Reason := "key compromise"; api.Passive := true |} in
  result (ca.Revoke w c req http.OtherRoundTripper) initial
    = Ok {| api.Status := "ok" |}.
Proof.
  intros config w c req.
  destruct (Revoke_modes w c req http.OtherRoundTripper initial) as (H & _ & _).
  unfold result. rewrite H; [reflexivity | discriminate].
Defined.

(* ===================================================================== *)
(** * The compact serialization has three parts                           *)
(* ===================================================================== *)






(* ===================================================================== *)
(** * The JSON object of the registered claims                            *)
(* ===================================================================== *)

Lemma lookup_putString (k v : string) (m : object) (k' : string) :
  jose.putString k v m !! k'
  = if decide (k = k') then (if nonEmpty v then Some (JStr v) else m !! k')
    else m !! k'.
Proof.
  unfold jose.putString. destruct (nonEmpty v).
  - rewrite lookup_insert. reflexivity.
  - now destruct (decide (k = k')).
Qed.

Lemma lookup_putDate (k : string) (d : option Z) (m : object) (k' : string) :
  jose.putDate k d m !! k'
  = if decide (k = k') then
      match d with Some n => Some (JNum (inject_Z n)) | None => m !! k' end
    else m !! k'.
Proof.
  unfold jose.putDate. destruct d.
  - rewrite lookup_insert. reflexivity.
  - now destruct (decide (k = k')).
Qed.

Lemma lookup_putAudience (aud : list string) (m : object) (k' : string) :
  jose.putAudience aud m !! k'
  = if decide ("aud" = k') then
      match aud with [] => m !! k' | _ => Some (JArr (JStr <$> aud)) end
    else m !! k'.
Proof.
  unfold jose.putAudience. destruct aud.
  - now destruct (decide ("aud" = k')).
  - rewrite lookup_insert. reflexivity.
Qed.

Ltac lookup_claims :=
  unfold jose.normalize;
  repeat first [ rewrite lookup_putString | rewrite lookup_putDate
               | rewrite lookup_putAudience ];
  repeat (rewrite decide_False by discriminate);
  repeat (rewrite decide_True by reflexivity);
  rewrite ?lookup_empty.

Lemma normalize_iss (c : jose.Claims) :
  jose.normalize c !! "iss"
  = if nonEmpty (jose.Issuer c) then Some (JStr (jose.Issuer c)) else None.
Proof. lookup_claims. reflexivity. Qed.

Lemma normalize_sub (c : jose.Claims) :
  jose.normalize c !! "sub"
  = if nonEmpty (jose.Subject c) then Some (JStr (jose.Subject c)) else None.
Proof. lookup_claims. reflexivity. Qed.

Lemma normalize_aud (c : jose.Claims) :
  jose.normalize c !! "aud"
  = match jose.Audience c with
    | [] => None
    | aud => Some (JArr (JStr <$> aud))
    end.
Proof. lookup_claims. now destruct (jose.Audience c). Qed.

Lemma normalize_nbf (c : jose.Claims) :
  jose.normalize c !! "nbf" = (fun n => JNum (inject_Z n)) <$> jose.NotBefore c.
Proof. lookup_claims. now destruct (jose.NotBefore c). Qed.

Lemma normalize_iat (c : jose.Claims) :
  jose.normalize c !! "iat" = (fun n => JNum (inject_Z n)) <$> jose.IssuedAt c.
Proof. lookup_claims. now destruct (jose.IssuedAt c). Qed.

Lemma normalize_exp (c : jose.Claims) :
  jose.normalize c !! "exp" = (fun n => JNum (inject_Z n)) <$> jose.Expiry c.
Proof. lookup_claims. now destruct (jose.Expiry c). Qed.

Lemma normalize_jti (c : jose.Claims) :
  jose.normalize c !! "jti"
  = if nonEmpty (jose.ID c) then Some (JStr (jose.ID c)) else None.
Proof. lookup_claims. reflexivity. Qed.

(* ===================================================================== *)
(** * Signing                                                             *)
(* ===================================================================== *)

Lemma Sign_Ok_inv (w : World) (b : jose.Builder) (s s' : state) (t : jose.JWS) :
  jose.Sign w b s = (Ok t, s') ->
  jose.jws_header t = jose.protected (jose.b_signer b)
  /\ jose.jws_claims t = jose.b_payload b
  /\ json_Marshal w (jose.b_payload b) = inr (jose.jws_raw t)
  /\ json_Marshal w (jose.protected (jose.b_signer b)) = inr (jose.jws_protected t)
  /\ jose_sign w (jose.sk_Algorithm (jose.signer_key (jose.b_signer b)))
       (jose.sk_Key (jose.signer_key (jose.b_signer b)))
       (jose.signingInput (jose.jws_protected t) (jose.jws_raw t))
     = inr (jose.jws_signature t)
  /\ s' = logged (EvSign (jose.sk_Algorithm (jose.signer_key (jose.b_signer b)))) s.
Proof.
  unfold jose.Sign. intros H.
  apply bind_Ok_inv in H as (raw & s1 & Hraw & H).
  apply bind_Ok_inv in H as (hdr & s2 & Hhdr & H).
  apply bind_Ok_inv in H as (sig & s3 & Hsig & H).
  unfold lift in Hraw, Hhdr.
  destruct (json_Marshal w (jose.b_payload b)) as [e | raw'] eqn:E1;
    [discriminate | inversion Hraw; subst raw' s1; clear Hraw].
  destruct (json_Marshal w (jose.protected (jose.b_signer b))) as [e | hdr'] eqn:E2;
    [discriminate | inversion Hhdr; subst hdr' s2; clear Hhdr].
  apply call_Ok_inv in Hsig as [Hsig ->].
  inversion H; subst t s'; clear H. cbn.
  repeat split; assumption.
Qed.




(* ===================================================================== *)
(** * Properties of package [jwt]                                         *)
(* ===================================================================== *)

Section quiet_facts.

Context {A B : Type}.

Lemma quiet_ret (a : A) : quiet (ret a).
Proof. intros s. split; reflexivity. Qed.

Lemma quiet_raise (e : error) : quiet (@raise A e).
Proof. intros s. split; reflexivity. Qed.

Lemma quiet_emit (e : event) : quiet (emit e).
Proof. intros s. split; reflexivity. Qed.

Lemma quiet_lift (r : error + A) : quiet (lift r).
Proof. intros s. destruct r; split; reflexivity. Qed.

Lemma quiet_call (e : event) (r : error + A) : quiet (call e r).
Proof. intros s. destruct r; split; reflexivity. Qed.

Lemma quiet_wrapErr (f : error -> error) (m : M A) : quiet m -> quiet (wrapErr f m).
Proof.
  intros H s. specialize (H s). unfold wrapErr.
  destruct (m s) as [[a | e | msg] s1]; exact H.
Qed.

Lemma quiet_bind (m : M A) (k : A -> M B) :
  quiet m -> (forall a, quiet (k a)) -> quiet (bind m k).
Proof.
  intros Hm Hk s. specialize (Hm s). unfold bind.
  destruct (m s) as [[a | e | msg] s1]; cbn in Hm; try exact Hm.
  destruct (Hk a s1) as [H1 H2]. destruct Hm as [H3 H4].
  split; congruence.
Qed.

End quiet_facts.

Create HintDb quiet.

#[local] Hint Resolve quiet_ret quiet_raise quiet_emit quiet_lift quiet_call
  quiet_wrapErr quiet_bind : quiet.

Lemma quiet_readPayload (w : World) (filename : string) :
  quiet (jwt.readPayload w filename).
Proof.
  unfold jwt.readPayload.
  destruct (String.eqb filename ""); [| destruct (String.eqb filename "-")].
  - apply quiet_bind; [auto with quiet |].
    intros st. destruct ((fst st =? 0) && negb (snd st)); auto 6 with quiet.
  - auto 6 with quiet.
  - auto 6 with quiet.
Qed.

Lemma quiet_readArgs (w : World) (ctx : cli.Context) : quiet (jwt.readArgs w ctx).
Proof.
  unfold jwt.readArgs. destruct (cli.Args ctx) as [| a [| a' rest]];
    auto using quiet_readPayload with quiet.
Qed.

Lemma quiet_validateKeyFlags (key jwks kid : string) :
  quiet (jwt.validateKeyFlags key jwks kid).
Proof.
  unfold jwt.validateKeyFlags.
  repeat match goal with |- quiet (if ?c then _ else _) => destruct c end;
    auto with quiet.
Qed.

Lemma quiet_readKey (w : World) (key jwks : string) (options : list joseOption) :
  quiet (jwt.readKey w key jwks options).
Proof.
  unfold jwt.readKey, jose.ParseKey, jose.ParseKeySet.
  repeat match goal with |- quiet (if ?c then _ else _) => destruct c end;
    auto with quiet.
Qed.

Lemma quiet_checkKey (w : World) (jwk : JSONWebKey) : quiet (jwt.checkKey w jwk).
Proof.
  unfold jwt.checkKey, jose.ValidateJWK.
  repeat match goal with |- quiet (if ?c then _ else _) => destruct c end;
    auto with quiet.
  destruct (jose_ValidateJWK w jwk); auto with quiet.
Qed.

Lemma quiet_run {A} (m : M A) (s s' : state) (r : res A) :
  quiet m -> m s = (r, s') ->
  st_ticks s' = st_ticks s /\ st_draws s' = st_draws s.
Proof. intros H E. specialize (H s). now rewrite E in H. Qed.

(** ** The random identifier *)

Lemma pick_hexDigit (n : Z) : isHexDigit (randutil.pick randutil.hexDigits n) = true.
Proof.
  unfold randutil.pick. generalize (Z.to_nat n). intros k.
  do 16 (destruct k as [| k]; [reflexivity |]).
  reflexivity.
Qed.

Lemma String'_Ok_inv (w : World) (n : nat) (s s' : state) (str : string) :
  randutil.String' w n randutil.hexDigits s = (Ok str, s') ->
  String.length str = n
  /\ allHex str = true
  /\ st_draws s' = (st_draws s + n)%nat
  /\ st_ticks s' = st_ticks s
  /\ (forall i, (i < n)%nat ->
        exists v, rand_Int w (st_draws s + i)%nat 16 = inr v /\
                  String.get i str = Some (randutil.pick randutil.hexDigits v)).
Proof.
  revert s s' str. induction n as [| n IH]; intros s s' str H.
  - cbn in H. inversion H; subst. cbn.
    repeat split; lia.
  - cbn [randutil.String'] in H.
    apply bind_Ok_inv in H as (num & s1 & Hnum & H).
    apply bind_Ok_inv in H as (rest & s2 & Hrest & H).
    inversion H; subst str s'; clear H.
    apply wrapErr_Ok_inv in Hnum. unfold rand_Int_below in Hnum.
    change (Z.of_nat (String.length randutil.hexDigits)) with 16 in Hnum.
    destruct (rand_Int w (st_draws s) 16) as [e | v] eqn:Hv; [discriminate |].
    inversion Hnum; subst v s1; clear Hnum.
    apply IH in Hrest as (Hlen & Hhex & Hdraws & Hticks & Hget).
    cbn [st_draws st_ticks] in Hdraws, Hticks, Hget.
    repeat split.
    + cbn. now rewrite Hlen.
    + cbn [allHex]. now rewrite pick_hexDigit, Hhex.
    + lia.
    + exact Hticks.
    + intros [| i] Hi.
      * exists num. rewrite Nat.add_0_r. split; [exact Hv | reflexivity].
      * destruct (Hget i ltac:(lia)) as (v & Hv' & Hg).
        exists v. replace (st_draws s + S i)%nat with (S (st_draws s) + i)%nat by lia.
        split; [exact Hv' | exact Hg].
Qed.

(** ** The stages of [signAction] *)

Lemma validateKeyFlags_Ok_inv (key jwks kid : string) (s s' : state) :
  jwt.validateKeyFlags key jwks kid s = (Ok tt, s') ->
  s' = s /\
  ((key <> "" /\ jwks = "") \/ (key = "" /\ jwks <> "" /\ kid <> "")).
Proof.
  unfold jwt.validateKeyFlags, nonEmpty.
  destruct (String.eqb_spec key ""), (String.eqb_spec jwks ""),
    (String.eqb_spec kid ""); cbn; intros H; inversion H; subst; auto.
Qed.

Lemma readKey_Ok_inv (w : World) (key jwks : string) (options : list joseOption)
    (s s' : state) (jwk : JSONWebKey) :
  jwt.readKey w key jwks options s = (Ok jwk, s') ->
  (key <> "" /\ jose_ParseKey w key options = inr jwk /\
   s' = logged (EvParseKey key options) s)
  \/ (key = "" /\ jwks <> "" /\ jose_ParseKeySet w jwks options = inr jwk /\
      s' = logged (EvParseKeySet jwks options) s).
Proof.
  unfold jwt.readKey, nonEmpty, jose.ParseKey, jose.ParseKeySet.
  destruct (String.eqb_spec key ""), (String.eqb_spec jwks ""); cbn [negb];
    intros H; try discriminate.
  - right. apply call_Ok_inv in H as [H1 H2]. auto.
  - left. apply call_Ok_inv in H as [H1 H2]. auto.
  - left. apply call_Ok_inv in H as [H1 H2]. auto.
Qed.

Lemma validateExp_Ok_inv (w : World) (ctx : cli.Context) (s s' : state) :
  jwt.validateExp w ctx s = (Ok tt, s') ->
  if negb (cli.Bool ctx "subtle") && cli.IsSet ctx "exp" then
    s' = ticked s /\
    clock w (st_ticks s) <= jose.Time (jose.UnixNumericDate (cli.Int64 ctx "exp"))
  else s' = s.
Proof.
  unfold jwt.validateExp.
  destruct (negb (cli.Bool ctx "subtle") && cli.IsSet ctx "exp").
  - unfold bind, time_Now, jose.Before. fold (ticked s).
    destruct (Z.ltb_spec (jose.Time (jose.UnixNumericDate (cli.Int64 ctx "exp")))
                (clock w (st_ticks s))) as [Hlt | Hge]; cbn; intros H; inversion H.
    split; [reflexivity | lia].
  - intros H. now inversion H.
Qed.




Lemma addClaims_Ok_inv (w : World) (ctx : cli.Context) (s s' : state) (c : jose.Claims) :
  jwt.addClaims w ctx s = (Ok c, s') ->
  let now := clock w (st_ticks s) in
  jose.Issuer c = cli.String ctx "iss"
  /\ jose.Subject c = cli.String ctx "sub"
  /\ jose.Audience c = cli.StringSlice ctx "aud"
  /\ jose.Expiry c = jose.UnixNumericDate (cli.Int64 ctx "exp")
  /\ jose.NotBefore c
     = match jose.UnixNumericDate (cli.Int64 ctx "nbf") with
       | None => jose.NewNumericDate now
       | Some d => Some d
       end
  /\ jose.IssuedAt c
     = match jose.UnixNumericDate (cli.Int64 ctx "iat") with
       | None => jose.NewNumericDate now
       | Some d => Some d
       end
  /\ st_ticks s' = S (st_ticks s)
  /\ (if String.eqb (cli.String ctx "jti") "" && cli.IsSet ctx "jti" then
        String.length (jose.ID c) = 40%nat
        /\ allHex (jose.ID c) = true
        /\ st_draws s' = (st_draws s + 40)%nat
        /\ (forall i, (i < 40)%nat ->
              exists v, rand_Int w (st_draws s + i)%nat 16 = inr v /\
                        String.get i (jose.ID c)
                        = Some (randutil.pick randutil.hexDigits v))
      else jose.ID c = cli.String ctx "jti" /\ st_draws s' = st_draws s).
Proof.
  intros H now. unfold jwt.addClaims in H.
  apply bind_Ok_inv in H as (now' & s1 & Hnow & H).
  unfold time_Now in Hnow. inversion Hnow; subst now' s1; clear Hnow.
  fold now in H. cbn [jose.NotBefore jose.IssuedAt jose.ID jose.Issuer
                       jose.Subject jose.Audience jose.Expiry] in H.
  apply bind_Ok_inv in H as (id & s2 & Hid & H).
  inversion H; subst c s'; clear H.
  cbn [jose.NotBefore jose.IssuedAt jose.ID jose.Issuer jose.Subject
         jose.Audience jose.Expiry].
  do 6 (split; [reflexivity |]).
  destruct (String.eqb (cli.String ctx "jti") "" && cli.IsSet ctx "jti").
  - apply wrapErr_Ok_inv in Hid. unfold randutil.Hex in Hid.
    apply String'_Ok_inv in Hid as (Hlen & Hhex & Hdraws & Hticks & Hget).
    cbn [st_ticks st_draws] in *.
    split; [exact Hticks |]. repeat split; assumption.
  - inversion Hid; subst id s2. cbn. auto.
Qed.

Lemma prepare_Ok_inv (w : World) (ctx : cli.Context) (s s' : state)
    (payload : object) (jwk : JSONWebKey) (c : jose.Claims) :
  jwt.prepare w ctx s = (Ok (payload, jwk, c), s') ->
  exists s1 s2 s3,
    jwt.readArgs w ctx s = (Ok payload, s1)
    /\ jwt.validateKeyFlags (cli.String ctx "key") (cli.String ctx "jwks")
         (cli.String ctx "kid") s1 = (Ok tt, s1)
    /\ jwt.readKey w (cli.String ctx "key") (cli.String ctx "jwks")
         (jwt.parseOptions ctx) s1 = (Ok jwk, s2)
    /\ jwt.checkKey w jwk s2 = (Ok tt, s2)
    /\ jwt.validateExp w ctx s2 = (Ok tt, s3)
    /\ jwt.addClaims w ctx s3 = (Ok c, s')
    /\ st_ticks s2 = st_ticks s /\ st_draws s3 = st_draws s.
Proof.
  unfold jwt.prepare. intros H.
  apply bind_Ok_inv in H as (payload' & s1 & Hargs & H).
  apply bind_Ok_inv in H as ([] & s1' & Hflags & H).
  apply bind_Ok_inv in H as (jwk' & s2 & Hkey & H).
  apply bind_Ok_inv in H as ([] & s2' & Hcheck & H).
  apply bind_Ok_inv in H as ([] & s3 & Hexp & H).
  apply bind_Ok_inv in H as (c' & s4 & Hclaims & H).
  inversion H; subst payload' jwk' c' s4; clear H.
  pose proof (validateKeyFlags_Ok_inv _ _ _ _ _ Hflags) as [-> _].
  destruct (quiet_run _ _ _ _ (quiet_readArgs w ctx) Hargs) as [Ht1 Hd1].
  destruct (quiet_run _ _ _ _ (quiet_readKey w _ _ _) Hkey) as [Ht2 Hd2].
  destruct (quiet_run _ _ _ _ (quiet_checkKey w jwk) Hcheck) as [Ht3 Hd3].
  assert (s2' = s2) as ->.
  { unfold jwt.checkKey, jose.ValidateJWK in Hcheck.
    repeat match type of Hcheck with
           | (if ?b then _ else _) _ = _ => destruct b; [discriminate |]
           end.
    destruct (jose_ValidateJWK w jwk); [discriminate |].
    now inversion Hcheck. }
  exists s1, s2, s3. repeat split; try assumption; try congruence.
  pose proof (validateExp_Ok_inv _ _ _ _ Hexp) as He.
  destruct (negb (cli.Bool ctx "subtle") && cli.IsSet ctx "exp").
  - destruct He as [-> _]. cbn. congruence.
  - subst s3. congruence.
Qed.

Lemma signBuilder_Ok_inv (w : World) (ctx : cli.Context) (s s' : state)
    (b : jose.Builder) :
  jwt.signBuilder w ctx s = (Ok b, s') ->
  exists payload jwk c s1,
    jwt.prepare w ctx s = (Ok (payload, jwk, c), s1)
    /\ jwt.validateClaims w (cli.Bool ctx "subtle") c s1 = (Ok tt, s')
    /\ jose_NewSigner w (Algorithm jwk) (Key jwk) = None
    /\ jose.b_payload b = payload ∪ (jwt.audOverride c ∪ (jose.normalize c ∪ ∅))
    /\ jose.b_signer b
       = {| jose.signer_key :=
              {| jose.sk_Algorithm := Algorithm jwk; jose.sk_Key := Key jwk |};
            jose.signer_opts := jwt.signerOptions ctx jwk |}.
Proof.
  unfold jwt.signBuilder. intros H.
  apply bind_Ok_inv in H as ([[payload jwk] c] & s1 & Hprep & H).
  apply bind_Ok_inv in H as ([] & s2 & Hval & H).
  apply bind_Ok_inv in H as (signer & s3 & Hsigner & H).
  inversion H; subst b s'; clear H.
  apply wrapErr_Ok_inv in Hsigner. unfold jose.NewSigner in Hsigner.
  cbn [jose.sk_Algorithm jose.sk_Key] in Hsigner.
  destruct (jose_NewSigner w (Algorithm jwk) (Key jwk)) eqn:Hnew; [discriminate |].
  inversion Hsigner; subst signer s3; clear Hsigner.
  exists payload, jwk, c, s1. repeat split; assumption.
Qed.

(** What a printed token is made of. *)
Lemma signs_inv (w : World) (ctx : cli.Context) (s : state) (t : jose.JWS) :
  signs w ctx s t ->
  exists payload jwk c s1 s2,
    jwt.prepare w ctx s = (Ok (payload, jwk, c), s1)
    /\ jwt.validateClaims w (cli.Bool ctx "subtle") c s1 = (Ok tt, s2)
    /\ jose.jws_claims t = payload ∪ (jwt.audOverride c ∪ (jose.normalize c ∪ ∅))
    /\ jose.jws_header t
       = jose.ExtraHeaders (jwt.signerOptions ctx jwk) ∪ {[ "alg" := JStr (Algorithm jwk) ]}
    /\ jose_sign w (Algorithm jwk) (Key jwk)
         (jose.signingInput (jose.jws_protected t) (jose.jws_raw t))
       = inr (jose.jws_signature t).
Proof.
  intros (b & s1 & s2 & Hb & Ht & _).
  apply signBuilder_Ok_inv in Hb as (payload & jwk & c & s0 & Hprep & Hval & _ & Hpay & Hsig).
  apply Sign_Ok_inv in Ht as (Hh & Hc & _ & _ & Hs & _).
  exists payload, jwk, c, s0, s1.
  rewrite Hsig in Hh, Hs. cbn in Hs.
  repeat split; try assumption; congruence.
Qed.

(** The command succeeds exactly when it prints a token. *)
Lemma signAction_Ok_signs (w : World) (ctx : cli.Context) (s s' : state) :
  jwt.signAction w ctx s = (Ok tt, s') ->
  exists t, signs w ctx s t /\
            last (st_trace s') = Some (EvPrintln (jose.compact t)).
Proof.
  intros H. pose proof H as H0. unfold jwt.signAction in H.
  apply bind_Ok_inv in H as (b & s1 & Hb & H).
  apply bind_Ok_inv in H as (raw & s2 & Hraw & H).
  apply wrapErr_Ok_inv in Hraw. unfold jose.CompactSerialize in Hraw.
  apply bind_Ok_inv in Hraw as (t & s3 & Ht & Hraw).
  inversion Hraw; subst raw s3; clear Hraw.
  rewrite emit_run in H. inversion H; subst s'; clear H.
  exists t. split.
  - exists b, s1, s2. auto.
  - cbn. apply last_snoc.
Qed.

Lemma signs_intro (w : World) (ctx : cli.Context) (s s1 s2 : state)
    (b : jose.Builder) (t : jose.JWS) :
  jwt.signBuilder w ctx s = (Ok b, s1) ->
  jose.Sign w b s1 = (Ok t, s2) ->
  signs w ctx s t.
Proof.
  intros Hb Ht. exists b, s1, s2. repeat split; try assumption.
  unfold jwt.signAction. rewrite (bind_Ok _ _ _ _ _ Hb).
  unfold jose.CompactSerialize.
  unfold bind at 1, wrapErr, bind at 1. rewrite Ht. reflexivity.
Qed.

(** ** Which outside calls a computation makes *)

Section emits_facts.

Context {A B : Type} (P : event -> Prop).

Lemma emits_ret (a : A) : emits P (ret a).
Proof. intros s e H. now left. Qed.

Lemma emits_raise (err : error) : emits P (@raise A err).
Proof. intros s e H. now left. Qed.

Lemma emits_emit (ev : event) : P ev -> emits P (emit ev).
Proof.
  intros HP s e H. cbn in H. apply elem_of_app in H as [H | H]; [now left |].
  apply list_elem_of_singleton in H. subst e. now right.
Qed.

Lemma emits_lift (r : error + A) : emits P (lift r).
Proof. intros s e H. destruct r; now left. Qed.

Lemma emits_wrapErr (f : error -> error) (m : M A) :
  emits P m -> emits P (wrapErr f m).
Proof.
  intros Hm s e H. apply (Hm s e). unfold wrapErr in H.
  destruct (m s) as [[a | err | msg] s1]; exact H.
Qed.

Lemma emits_bind (m : M A) (k : A -> M B) :
  emits P m -> (forall a, emits P (k a)) -> emits P (bind m k).
Proof.
  intros Hm Hk s e H. unfold bind in H. specialize (Hm s e).
  destruct (m s) as [[a | err | msg] s1]; cbn in *; auto.
  destruct (Hk a s1 e H) as [H1 | H1]; auto.
Qed.

End emits_facts.

Lemma emits_call {A} (P : event -> Prop) (ev : event) (r : error + A) :
  P ev -> emits P (call ev r).
Proof.
  intros HP. unfold call. apply emits_bind.
  - now apply emits_emit.
  - intros []. destruct r; [apply emits_raise | apply emits_ret].
Qed.

Lemma emits_readPayload (w : World) (filename : string) :
  emits (payloadEvent filename) (jwt.readPayload w filename).
Proof.
  unfold jwt.readPayload.
  destruct (String.eqb_spec filename "") as [E1 | E1];
    [| destruct (String.eqb_spec filename "-") as [E2 | E2]].
  - apply emits_bind.
    + apply emits_wrapErr, emits_call. now left.
    + intros st. destruct ((fst st =? 0) && negb (snd st)).
      * apply emits_ret.
      * apply emits_bind; [apply emits_emit; right; now left |].
        intros _. apply emits_wrapErr, emits_lift.
  - apply emits_bind; [apply emits_emit; right; now left |].
    intros _. apply emits_wrapErr, emits_lift.
  - apply emits_bind.
    + apply emits_wrapErr, emits_call. right. right. auto.
    + intros b. apply emits_wrapErr, emits_lift.
Qed.

Lemma emits_readArgs (w : World) (ctx : cli.Context) :
  emits (fun e => e = EvStdinStat \/ e = EvStdinRead \/
                  exists f, cli.Args ctx = [f] /\ e = EvReadFile f)
    (jwt.readArgs w ctx).
Proof.
  unfold jwt.readArgs. destruct (cli.Args ctx) as [| a [| a' rest]].
  - intros s e H.
    destruct (emits_readPayload w "" s e H) as [H1 | [H1 | [H1 | (H1 & _)]]];
      auto; contradiction.
  - intros s e H.
    destruct (emits_readPayload w a s e H) as [H1 | [H1 | [H1 | (_ & _ & H1)]]];
      eauto 6.
  - apply emits_raise.
Qed.

Lemma signAction_key_flags_refused (w : World) (ctx : cli.Context) (s : state)
    (err : error) :
  (forall s', jwt.validateKeyFlags (cli.String ctx "key") (cli.String ctx "jwks")
                (cli.String ctx "kid") s' = (Err err, s')) ->
  jwt.signAction w ctx s
  = match jwt.readArgs w ctx s with
    | (Ok _, s1) => (Err err, s1)
    | (Err e, s1) => (Err e, s1)
    | (Panic msg, s1) => (Panic msg, s1)
    end.
Proof.
  intros H. unfold jwt.signAction, jwt.signBuilder, jwt.prepare.
  unfold bind at 1. unfold bind at 1. unfold bind at 1.
  destruct (jwt.readArgs w ctx s) as [[payload | e | msg] s1]; try reflexivity.
  unfold bind at 1. now rewrite H.
Qed.

Lemma validateKeyFlags_refuses (key jwks kid : string) :
  (key = "" /\ jwks = "") \/ (key <> "" /\ jwks <> "") \/ (jwks <> "" /\ kid = "") ->
  exists u,
    (forall s', jwt.validateKeyFlags key jwks kid s' = (Err (ErrUsage u), s'))
    /\ (key = "" -> jwks = "" -> u = RequiredOrFlag "key" "jwks")
    /\ (key <> "" -> jwks <> "" -> u = MutuallyExclusiveFlags "key" "jwks")
    /\ (key = "" -> jwks <> "" -> kid = "" -> u = RequiredWithFlag "kid" "jwks").
Proof.
  unfold jwt.validateKeyFlags, nonEmpty. intros H.
  destruct (String.eqb_spec key ""), (String.eqb_spec jwks ""),
    (String.eqb_spec kid ""); cbn;
    try (exfalso; destruct H as [[? ?] | [[? ?] | [? ?]]]; congruence);
    eexists; (split; [intros s'; reflexivity |]);
    repeat split; intros; congruence.
Qed.

(** C5.  When the key flags are wrong (neither [--key] nor [--jwks],
    both of them, or [--jwks] without [--kid]) the sign command stops
    right after reading the payload: it returns no token, its final
    state is the one in which the payload was read, and no key file and
    no key set is ever parsed.  When the payload was read the error is
    the usage error of the case: one of --key or --jwks is required,
    --key and --jwks are mutually exclusive, or --jwks requires --kid. *)
Theorem key_flags_checked_before_key_io
    (w : World) (ctx : cli.Context) (s : state) :
  let key := cli.String ctx "key" in
  let jwks := cli.String ctx "jwks" in
  let kid := cli.String ctx "kid" in
  (key = "" /\ jwks = "") \/ (key <> "" /\ jwks <> "") \/ (jwks <> "" /\ kid = "") ->
  isOk (result (jwt.signAction w ctx) s) = false
  /\ final (jwt.signAction w ctx) s = final (jwt.readArgs w ctx) s
  /\ (forall path opts,
        (EvParseKey path opts ∈ trace (jwt.signAction w ctx) s ->
         EvParseKey path opts ∈ st_trace s) /\
        (EvParseKeySet path opts ∈ trace (jwt.signAction w ctx) s ->
         EvParseKeySet path opts ∈ st_trace s))
  /\ (forall payload s1,
        jwt.readArgs w ctx s = (Ok payload, s1) ->
        (exists err, jwt.signAction w ctx s = (Err err, s1) /\
                     isUsageError err = true)
        /\ (key = "" -> jwks = "" ->
         jwt.signAction w ctx s
         = (Err (ErrUsage (RequiredOrFlag "key" "jwks")), s1))
        /\ (key <> "" -> jwks <> "" ->
            jwt.signAction w ctx s
            = (Err (ErrUsage (MutuallyExclusiveFlags "key" "jwks")), s1))
        /\ (key = "" -> jwks <> "" -> kid = "" ->
            jwt.signAction w ctx s
            = (Err (ErrUsage (RequiredWithFlag "kid" "jwks")), s1))).
Proof.
  intros key jwks kid Hbad.
  destruct (validateKeyFlags_refuses key jwks kid Hbad) as (u & Hu & H1 & H2 & H3).
  pose proof (signAction_key_flags_refused w ctx s _ Hu) as Hrun.
  assert (Hfinal : final (jwt.signAction w ctx) s = final (jwt.readArgs w ctx) s).
  { unfold final. rewrite Hrun.
    destruct (jwt.readArgs w ctx s) as [[payload | e | msg] s1]; reflexivity. }
  split; [| split; [exact Hfinal | split]].
  - unfold result. rewrite Hrun.
    destruct (jwt.readArgs w ctx s) as [[payload | e | msg] s1]; reflexivity.
  - intros path opts. unfold trace. fold (final (jwt.signAction w ctx) s).
    rewrite Hfinal. unfold final.
    split; intros Hin;
      destruct (emits_readArgs w ctx s _ Hin)
        as [Hold | [Hev | [Hev | (f & _ & Hev)]]];
      solve [assumption | discriminate].
  - intros payload s1 Hread. rewrite Hread in Hrun.
    split; [exists (ErrUsage u); split; [exact Hrun | reflexivity] |].
    repeat split; intros; rewrite Hrun; repeat f_equal; auto.
Qed.

Lemma key_flags_checked_before_key_io_witness :
  let w := scenario.world (scenario.caConfig [] []) ∅ 0 in
  let ctx := scenario.context ["payload.json"]
               [("key", cli.VString "key.pem"); ("jwks", cli.VString "keys.jwks")] in
  jwt.signAction w ctx initial
  = (Err (ErrUsage (MutuallyExclusiveFlags "key" "jwks")),
     logged (EvReadFile "payload.json") initial).
Proof.
  intros w ctx.
  destruct (key_flags_checked_before_key_io w ctx initial) as (_ & _ & _ & H).
  - right. left. split; discriminate.
  - destruct (H ∅ (logged (EvReadFile "payload.json") initial)) as (_ & _ & H2 & _).
    + reflexivity.
    + apply H2; discriminate.
Defined.

(** ** Running the command on a concrete input *)

Lemma runSign_signs (w : World) (ctx : cli.Context) (s : state) (t : jose.JWS) :
  runSign w ctx s = Some t -> signs w ctx s t.
Proof.
  unfold runSign. intros H.
  destruct (jwt.signBuilder w ctx s) as [[b | e | msg] s1] eqn:Hb; try discriminate.
  destruct (jose.Sign w b s1) as [[t' | e | msg] s2] eqn:Ht; try discriminate.
  inversion H; subst t'. exact (signs_intro _ _ _ _ _ _ _ Hb Ht).
Qed.

Lemma prepare_payload (w : World) (ctx : cli.Context) (s s1 : state)
    (payload : object) (jwk : JSONWebKey) (c : jose.Claims) :
  jwt.prepare w ctx s = (Ok (payload, jwk, c), s1) ->
  exists s0, jwt.readArgs w ctx s = (Ok payload, s0).
Proof.
  intros H. apply prepare_Ok_inv in H as (s0 & _ & _ & H & _). eauto.
Qed.

(** C9.  The payload, the claims of the flags and the single-audience
    override are merged in this order: claims, override, payload.  The
    claims of the printed token are the payload over the override over
    the claims of the flags, so every member of the payload appears in
    the token with the value of the payload, whatever the flags say for
    that name; this includes "iss", "sub" and "aud". *)
Theorem payload_merged_last
    (w : World) (ctx : cli.Context) (s : state) (t : jose.JWS) :
  signs w ctx s t ->
  exists payload jwk c s0 s1,
    jwt.readArgs w ctx s = (Ok payload, s0)
    /\ jwt.prepare w ctx s = (Ok (payload, jwk, c), s1)
    /\ jose.jws_claims t
       = jose.b_payload
           (jose.ClaimsMap payload
              (jose.ClaimsMap (jwt.audOverride c)
                 (jose.ClaimsOf c
                    (jose.Signed {| jose.signer_key :=
                                      {| jose.sk_Algorithm := Algorithm jwk;
                                         jose.sk_Key := Key jwk |};
                                    jose.signer_opts := jwt.signerOptions ctx jwk |}))))
    /\ (forall k v, payload !! k = Some v -> jose.jws_claims t !! k = Some v)
    /\ (forall k, payload !! k = None ->
                  jose.jws_claims t !! k
                  = (jwt.audOverride c ∪ jose.normalize c) !! k).
Proof.
  intros H. apply signs_inv in H as (payload & jwk & c & s1 & s2 & Hprep & _ & Hc & _).
  destruct (prepare_payload _ _ _ _ _ _ _ Hprep) as [s0 Hread].
  exists payload, jwk, c, s0, s1.
  split; [exact Hread |]. split; [exact Hprep |]. split; [exact Hc |].
  rewrite Hc. split.
  - intros k v Hk. now apply lookup_union_Some_l.
  - intros k Hk. rewrite lookup_union_r by exact Hk.
    now rewrite (right_id_L ∅ (∪)).
Qed.

Lemma payload_merged_last_witness :
  let w := scenario.world (scenario.caConfig [] [])
             {[ "iss" := JStr "payload-issuer" ]} 0 in
  let ctx := scenario.context ["payload.json"]
               [("key", cli.VString "key.pem"); ("iss", cli.VString "flag-issuer");
                ("sub", cli.VString "subject"); ("aud", cli.VStringSlice ["a"]);
                ("exp", cli.VInt64 60)] in
  jose.jws_claims (tokenOf w ctx initial) !! "iss" = Some (JStr "payload-issuer").
Proof.
  intros w ctx.
  destruct (payload_merged_last w ctx initial (tokenOf w ctx initial))
    as (payload & jwk & c & s0 & s1 & Hread & _ & _ & H & _).
  - apply runSign_signs. vm_compute. reflexivity.
  - apply H. vm_compute in Hread. inversion Hread. reflexivity.
Defined.

(** C1, as stated, fails: with the flag [--aud a] and a payload that has
    its own member "aud", here the array ["a"], the printed token
    carries the array of the payload. *)
Lemma single_audience_counterexample :
  ~ (forall (w : World) (ctx : cli.Context) (s : state) (t : jose.JWS) (v : string),
       cli.StringSlice ctx "aud" = [v] ->
       signs w ctx s t ->
       jose.jws_claims t !! "aud" = Some (JStr v)).
Proof.
  intros H.
  pose (w := scenario.world (scenario.caConfig [] [])
               {[ "aud" := JArr [JStr "a"] ]} 0).
  pose (ctx := scenario.context ["payload.json"]
                 [("key", cli.VString "key.pem"); ("iss", cli.VString "issuer");
                  ("sub", cli.VString "subject"); ("aud", cli.VStringSlice ["a"]);
                  ("exp", cli.VInt64 60)]).
  assert (Hs : signs w ctx initial (tokenOf w ctx initial)).
  { apply runSign_signs. vm_compute. reflexivity. }
  specialize (H w ctx initial (tokenOf w ctx initial) "a" eq_refl Hs).
  vm_compute in H. discriminate H.
Qed.

(** C1, amended.  When the audience flag has exactly one value and the
    payload that was read has no member "aud", the claim "aud" of the
    printed token is that value as a JSON string, not an array. *)
Theorem single_audience_is_string
    (w : World) (ctx : cli.Context) (s s0 : state) (t : jose.JWS)
    (v : string) (payload : object) :
  cli.StringSlice ctx "aud" = [v] ->
  jwt.readArgs w ctx s = (Ok payload, s0) ->
  payload !! "aud" = None ->
  signs w ctx s t ->
  jose.jws_claims t !! "aud" = Some (JStr v)
  /\ jose.jws_claims t !! "aud" <> Some (JArr [JStr v]).
Proof.
  intros Haud Hread Hnone Hs.
  apply signs_inv in Hs as (payload' & jwk & c & s1 & s2 & Hprep & _ & Hc & _).
  pose proof Hprep as Hprep'.
  apply prepare_Ok_inv in Hprep' as (s0' & s2' & s3' & Hread' & _ & _ & _ & _ & Hclaims & _).
  rewrite Hread in Hread'. inversion Hread'; subst payload' s0'; clear Hread'.
  apply addClaims_Ok_inv in Hclaims as (_ & _ & Ha & _).
  assert (Hlook : jose.jws_claims t !! "aud" = Some (JStr v)).
  { rewrite Hc. rewrite lookup_union_r by exact Hnone.
    apply lookup_union_Some_l. unfold jwt.audOverride.
    rewrite Ha, Haud. apply lookup_singleton_eq. }
  split; [exact Hlook |]. rewrite Hlook. discriminate.
Qed.

Lemma single_audience_is_string_witness :
  let w := scenario.world (scenario.caConfig [] []) ∅ 0 in
  let ctx := scenario.context []
               [("key", cli.VString "key.pem"); ("iss", cli.VString "issuer");
                ("sub", cli.VString "subject"); ("aud", cli.VStringSlice ["a"]);
                ("exp", cli.VInt64 60)] in
  jose.jws_claims (tokenOf w ctx initial) !! "aud" = Some (JStr "a")
  /\ jose.jws_claims (tokenOf w ctx initial) !! "aud" <> Some (JArr [JStr "a"]).
Proof.
  intros w ctx.
  apply (single_audience_is_string w ctx initial (logged EvStdinStat initial)
           (tokenOf w ctx initial) "a" ∅).
  - reflexivity.
  - reflexivity.
  - reflexivity.
  - apply runSign_signs. vm_compute. reflexivity.
Defined.

(** C10.  The header of the printed token has a member "kid" exactly
    when the flag [--no-kid] is unset and the key id of the signing key
    is not empty, and then it is that key id; otherwise the header has
    no member "kid".  The signing key is the one the command read, which
    the signature is computed with. *)
Theorem header_kid
    (w : World) (ctx : cli.Context) (s : state) (t : jose.JWS) :
  signs w ctx s t ->
  exists (jwk : JSONWebKey),
    (exists payload c s1, jwt.prepare w ctx s = (Ok (payload, jwk, c), s1))
    /\ jose_sign w (Algorithm jwk) (Key jwk)
         (jose.signingInput (jose.jws_protected t) (jose.jws_raw t))
       = inr (jose.jws_signature t)
    /\ ((cli.Bool ctx "no-kid" = false /\ KeyID jwk <> "") ->
        jose.jws_header t !! "kid" = Some (JStr (KeyID jwk)))
    /\ ((cli.Bool ctx "no-kid" = true \/ KeyID jwk = "") ->
        jose.jws_header t !! "kid" = None)
    /\ (is_Some (jose.jws_header t !! "kid") <->
        cli.Bool ctx "no-kid" = false /\ KeyID jwk <> "").
Proof.
  intros H. apply signs_inv in H as (payload & jwk & c & s1 & s2 & Hprep & _ & _ & Hh & Hsig).
  exists jwk. split; [eauto |]. split; [exact Hsig |].
  assert (Hkid : jose.jws_header t !! "kid"
                 = if negb (cli.Bool ctx "no-kid") && negb (String.eqb (KeyID jwk) "")
                   then Some (JStr (KeyID jwk)) else None).
  { rewrite Hh. unfold jwt.signerOptions, jose.WithType, jose.WithHeader.
    destruct (negb (cli.Bool ctx "no-kid") && negb (String.eqb (KeyID jwk) ""));
      cbn [jose.ExtraHeaders].
    - apply lookup_union_Some_l. apply lookup_insert_eq.
    - apply lookup_union_None. split.
      + rewrite lookup_insert_ne by discriminate. apply lookup_empty.
      + now rewrite lookup_singleton_ne. }
  rewrite Hkid.
  destruct (cli.Bool ctx "no-kid"), (String.eqb_spec (KeyID jwk) ""); cbn;
    (split; [| split]);
    try (intros [? ?]; congruence);
    try (intros [? | ?]; congruence);
    try (split; [intros [? ?]; discriminate | intros [? ?]; congruence]);
    try (split; [eauto | eauto]).
Qed.

Lemma header_kid_witness :
  let w := scenario.world (scenario.caConfig [] []) ∅ 0 in
  let ctx := scenario.context []
               [("key", cli.VString "key.pem"); ("subtle", cli.VBool true)] in
  jose.jws_header (tokenOf w ctx initial) !! "kid" = Some (JStr "key-1").
Proof.
  intros w ctx.
  destruct (header_kid w ctx initial (tokenOf w ctx initial))
    as (jwk & (payload & c & s1 & Hprep) & _ & H & _).
  - apply runSign_signs. vm_compute. reflexivity.
  - vm_compute in Hprep. inversion Hprep; subst jwk.
    apply H. split; [reflexivity | discriminate].
Defined.








Lemma audOverride_other (c : jose.Claims) (k : string) :
  k <> "aud" -> jwt.audOverride c !! k = None.
Proof.
  intros Hk. unfold jwt.audOverride.
  destruct (jose.Audience c) as [| a [| a' rest]];
    try apply lookup_empty.
  apply lookup_singleton_ne. congruence.
Qed.

Lemma unset_Int64 (ctx : cli.Context) (name : string) :
  cli.IsSet ctx name = false -> cli.Int64 ctx name = 0.
Proof.
  unfold cli.Int64, cli.IsSet. destruct (cli.flags ctx !! name); [discriminate | reflexivity].
Qed.

Lemma unset_String (ctx : cli.Context) (name : string) :
  cli.IsSet ctx name = false -> cli.String ctx name = "".
Proof.
  unfold cli.String, cli.IsSet. destruct (cli.flags ctx !! name); [discriminate | reflexivity].
Qed.

(** C7.  Once the payload and the key are there, the claims get their
    defaults from one reading of the clock, the one made after the
    expiry check: a not-before that is not set, and an issued-at that is
    not set, are the numeric date of that reading.  When [--jti] is set
    with an empty value the identifier is made of 40 characters, each
    the hexadecimal digit picked by one draw below 16 of the random
    source (40 draws, 16^40 = 2^160 values); when [--jti] is not set the
    identifier stays empty and nothing is drawn.  Unless the payload has
    a member of the same name, the printed token carries these values;
    an empty identifier is left out of it. *)
Theorem defaulted_claims
    (w : World) (ctx : cli.Context) (s s1 : state)
    (payload : object) (jwk : JSONWebKey) (c : jose.Claims) :
  jwt.prepare w ctx s = (Ok (payload, jwk, c), s1) ->
  let reading := (st_ticks s +
                  (if negb (cli.Bool ctx "subtle") && cli.IsSet ctx "exp"
                   then 1 else 0))%nat in
  let now := clock w reading in
  (cli.IsSet ctx "nbf" = false -> jose.NotBefore c = jose.NewNumericDate now)
  /\ (cli.IsSet ctx "iat" = false -> jose.IssuedAt c = jose.NewNumericDate now)
  /\ (now <> jose.zeroTime -> jose.NewNumericDate now = Some (now / 1000000000))
  /\ (cli.IsSet ctx "jti" = true -> cli.String ctx "jti" = "" ->
      String.length (jose.ID c) = 40%nat
      /\ allHex (jose.ID c) = true
      /\ st_draws s1 = (st_draws s + 40)%nat
      /\ (forall i, (i < 40)%nat ->
            exists v, rand_Int w (st_draws s + i)%nat 16 = inr v /\
                      String.get i (jose.ID c)
                      = Some (randutil.pick randutil.hexDigits v))
      /\ Z.of_nat (String.length randutil.hexDigits) ^ 40 = 2 ^ 160)
  /\ (cli.IsSet ctx "jti" = false -> jose.ID c = "" /\ st_draws s1 = st_draws s)
  /\ (forall t, signs w ctx s t ->
        (payload !! "nbf" = None ->
         jose.jws_claims t !! "nbf" = (fun n => JNum (inject_Z n)) <$> jose.NotBefore c)
        /\ (payload !! "iat" = None ->
            jose.jws_claims t !! "iat" = (fun n => JNum (inject_Z n)) <$> jose.IssuedAt c)
        /\ (payload !! "jti" = None ->
            jose.jws_claims t !! "jti"
            = if nonEmpty (jose.ID c) then Some (JStr (jose.ID c)) else None)).
Proof.
  intros Hprep reading now.
  pose proof Hprep as Hp.
  apply prepare_Ok_inv in Hp as (s0 & s2 & s3 & _ & _ & _ & _ & Hexp & Hc & Ht2 & Hd3).
  assert (Hreading : st_ticks s3 = reading).
  { apply validateExp_Ok_inv in Hexp. subst reading.
    destruct (negb (cli.Bool ctx "subtle") && cli.IsSet ctx "exp").
    - destruct Hexp as [-> _]. cbn. lia.
    - subst s3. lia. }
  apply addClaims_Ok_inv in Hc as (_ & _ & _ & _ & Hnbf & Hiat & _ & Hid).
  rewrite Hreading in Hnbf, Hiat. fold now in Hnbf, Hiat.
  split; [| split; [| split; [| split; [| split]]]].
  - intros Hunset. rewrite Hnbf, (unset_Int64 _ _ Hunset). reflexivity.
  - intros Hunset. rewrite Hiat, (unset_Int64 _ _ Hunset). reflexivity.
  - intros Hnz. unfold jose.NewNumericDate.
    destruct (Z.eqb_spec now jose.zeroTime); [contradiction | reflexivity].
  - intros Hset Hempty. rewrite Hset, Hempty in Hid. cbn in Hid.
    destruct Hid as (Hlen & Hhex & Hdraws & Hget).
    rewrite Hd3 in Hdraws, Hget.
    repeat split; assumption.
  - intros Hunset. rewrite Hunset, andb_false_r in Hid.
    destruct Hid as [Hid Hdraws].
    rewrite (unset_String _ _ Hunset) in Hid. split; [exact Hid | congruence].
  - intros t Ht.
    apply signs_inv in Ht as (payload' & jwk' & c' & s1' & s2' & Hprep' & _ & Hcl & _).
    rewrite Hprep in Hprep'. inversion Hprep'; subst payload' jwk' c' s1'; clear Hprep'.
    rewrite Hcl. repeat split; intros Hnone.
    + rewrite lookup_union_r by exact Hnone.
      rewrite lookup_union_r by (apply audOverride_other; discriminate).
      rewrite lookup_union_l by apply lookup_empty. apply normalize_nbf.
    + rewrite lookup_union_r by exact Hnone.
      rewrite lookup_union_r by (apply audOverride_other; discriminate).
      rewrite lookup_union_l by apply lookup_empty. apply normalize_iat.
    + rewrite lookup_union_r by exact Hnone.
      rewrite lookup_union_r by (apply audOverride_other; discriminate).
      rewrite lookup_union_l by apply lookup_empty. apply normalize_jti.
Qed.

Lemma defaulted_claims_witness :
  let w := scenario.world (scenario.caConfig [] []) ∅ (90 * jose.nanosecond + 5) in
  let ctx := scenario.context []
               [("key", cli.VString "key.pem"); ("jti", cli.VString "");
                ("subtle", cli.VBool true)] in
  exists c s1,
    fst (jwt.prepare w ctx initial) = Ok (∅, scenario.signingKey, c)
    /\ jose.NotBefore c = Some 90
    /\ jose.IssuedAt c = Some 90
    /\ jose.ID c = "0123456789abcdef0123456789abcdef01234567"
    /\ st_draws s1 = 40%nat.
Proof.
  intros w ctx.
  destruct (jwt.prepare w ctx initial) as [[[[payload jwk] c] | e | msg] s1] eqn:Hprep;
    try (vm_compute in Hprep; discriminate Hprep).
  assert (Hpj : payload = ∅ /\ jwk = scenario.signingKey
                /\ jose.ID c = "0123456789abcdef0123456789abcdef01234567").
  { vm_compute in Hprep. inversion Hprep; subst. repeat split. }
  destruct Hpj as (-> & -> & Hid).
  destruct (defaulted_claims w ctx initial s1 _ _ c Hprep)
    as (Hnbf & Hiat & Hnow & Hjti & _).
  exists c, s1. cbn [fst].
  split; [reflexivity |].
  split; [rewrite (Hnbf eq_refl); reflexivity |].
  split; [rewrite (Hiat eq_refl); reflexivity |].
  split; [exact Hid |].
  destruct (Hjti eq_refl eq_refl) as (_ & _ & Hdraws & _). exact Hdraws.
Defined.

(* ===================================================================== *)
(** * Further properties of package [exec]                                *)
(* ===================================================================== *)

(** X1.  [Step] is [Command] on the running program itself.  [Command]
    starts exactly one process, whatever the outcome; it returns the
    standard output exactly when the process succeeds, and otherwise an
    error around the cause whose text names the program, its arguments
    joined by spaces and, on the next line, what the process wrote to
    its standard error. *)
Theorem Command_outcome (w : World) (name : string) (args : list string) (s : state) :
  trace (exec.Command w name args) s = st_trace s ++ [EvCommand name args]
  /\ (forall out, result (exec.Command w name args) s = Ok out <->
                  fst (cmd_Output w name args) = inr out)
  /\ (forall err, fst (cmd_Output w name args) = inl err ->
        result (exec.Command w name args) s
        = Err (ErrWrap err ("error running " +:+ name +:+ " " +:+
                            strings.Join args " " +:+ ":" +:+ newline +:+
                            snd (cmd_Output w name args))))
  /\ exec.Step w args s = exec.Command w (os_Args0 w) args s.
Proof.
  unfold trace, result, exec.Command, exec.Step, bind, emit.
  destruct (cmd_Output w name args) as [[err | out] stderr]; cbn.
  - repeat split; intros; try discriminate; congruence.
  - repeat split; intros; try discriminate; congruence.
Qed.

(** X2.  [OpenInBrowser] starts at most one process, the opener of the
    platform, and the URL is its last argument.  On a platform other
    than darwin, linux and windows it starts nothing and fails with
    "unsupported platform"; on these three it returns what starting the
    process returns. *)
Theorem OpenInBrowser_platforms (sv : Services) (url : string) (s : state) :
  let goos := runtime_GOOS sv in
  (goos <> "darwin" -> goos <> "linux" -> goos <> "windows" ->
   exec.OpenInBrowser sv url s
   = (Err (ErrNew ("unsupported platform '" +:+ goos +:+ "'")), s))
  /\ (result (exec.OpenInBrowser sv url) s = Ok tt ->
      goos = "darwin" \/ goos = "linux" \/ goos = "windows")
  /\ (added (exec.OpenInBrowser sv url) s = []
      \/ exists name args,
           added (exec.OpenInBrowser sv url) s = [EvCommand name args]
           /\ last args = Some url
           /\ cmd_Start sv name args
              = match result (exec.OpenInBrowser sv url) s with
                | Err err => Some err
                | _ => None
                end
           /\ ((goos = "darwin" /\ name = "open")
               \/ (goos = "linux" /\ name = "xdg-open")
               \/ (goos = "windows" /\ name = "rundll32"))).
Proof.
  intros goos. unfold exec.OpenInBrowser, added, result. fold goos.
  destruct (String.eqb_spec goos "darwin") as [Ed | Ed];
    [| destruct (String.eqb_spec goos "linux") as [El | El];
       [| destruct (String.eqb_spec goos "windows") as [Ew | Ew]]].
  - split; [intros; contradiction |]. split; [auto |]. right.
    exists "open", [url]. unfold callErr, bind, emit. cbn.
    destruct (cmd_Start sv "open" [url]); cbn; rewrite drop_app_length; auto 8.
  - split; [intros; contradiction |]. split; [auto |]. right.
    exists "xdg-open", [url]. unfold callErr, bind, emit. cbn.
    destruct (cmd_Start sv "xdg-open" [url]); cbn; rewrite drop_app_length; auto 8.
  - split; [intros; contradiction |]. split; [auto |]. right.
    exists "rundll32", ["url.dll,FileProtocolHandler"; url].
    unfold callErr, bind, emit. cbn.
    destruct (cmd_Start sv "rundll32" ["url.dll,FileProtocolHandler"; url]);
      cbn; rewrite drop_app_length; auto 8.
  - split; [reflexivity |]. split; [discriminate |]. left.
    cbn. apply drop_all.
Qed.

Lemma OpenInBrowser_platforms_witness :
  exec.OpenInBrowser (host.services "plan9") "https://ca.example.com" initial
  = (Err (ErrNew "unsupported platform 'plan9'"), initial).
Proof.
  destruct (OpenInBrowser_platforms (host.services "plan9")
              "https://ca.example.com" initial) as (H & _).
  apply H; discriminate.
Defined.


Lemma Command_outcome_witness :
  result (exec.Command (scenario.world (scenario.caConfig [] []) ∅ 0)
            "step" ["oauth"; "--bare"]) initial = Ok "".
Proof.
  destruct (Command_outcome (scenario.world (scenario.caConfig [] []) ∅ 0)
              "step" ["oauth"; "--bare"] initial) as (_ & H & _).
  apply H. reflexivity.
Defined.


(* ===================================================================== *)
(** * Further properties of package [ca]                                  *)
(* ===================================================================== *)

(** X4.  [VerifyClientCert] returns without error exactly when the
    certificate and the key are read and serialized, they form a key
    pair, the pools are read from the first configured root and from the
    intermediate, and the certificate verifies against these two pools.
    A successful run reads the four files in this order: certificate,
    key, root, intermediate. *)
Theorem VerifyClientCert_sound
    (sv : Services) (c : ca.offlineCA) (certFile keyFile : string) (s s' : state) :
  ca.VerifyClientCert sv c certFile keyFile s = (Ok tt, s') <->
  (exists cert key certPem keyPem rootPool intermediatePool,
     pemutil_ReadCertificate sv certFile = inr cert
     /\ pemutil_Read sv keyFile = inr key
     /\ pemutil_SerializeCertificate sv cert = inr certPem
     /\ pemutil_SerializeKey sv key = inr keyPem
     /\ tls_X509KeyPair sv (pem_EncodeToMemory sv certPem)
          (pem_EncodeToMemory sv keyPem) = None
     /\ x509util_ReadCertPool sv (ca.Root c) = inr rootPool
     /\ x509util_ReadCertPool sv (authority.IntermediateCert (ca.config c))
        = inr intermediatePool
     /\ x509_Verify sv cert rootPool intermediatePool = None)
  /\ s' = logged (EvReadFile (authority.IntermediateCert (ca.config c)))
            (logged (EvReadFile (ca.Root c))
               (logged (EvReadFile keyFile) (logged (EvReadFile certFile) s))).
Proof.
  unfold ca.VerifyClientCert. split.
  - intros H.
    apply bind_Ok_inv in H as (cert & s1 & Hcert & H).
    apply call_Ok_inv in Hcert as [Hcert ->].
    apply bind_Ok_inv in H as (key & s2 & Hkey & H).
    apply call_Ok_inv in Hkey as [Hkey ->].
    apply bind_Ok_inv in H as (certPem & s3 & HcertPem & H).
    apply bind_Ok_inv in H as (keyPem & s4 & HkeyPem & H).
    apply bind_Ok_inv in H as ([] & s5 & Hpair & H).
    apply bind_Ok_inv in H as (rootPool & s6 & Hroot & H).
    apply bind_Ok_inv in H as (interPool & s7 & Hinter & H).
    apply bind_Ok_inv in H as ([] & s8 & Hverify & H).
    inversion H; subst s8; clear H.
    unfold lift in HcertPem, HkeyPem.
    destruct (pemutil_SerializeCertificate sv cert) as [e | cp] eqn:E1;
      [discriminate | inversion HcertPem; subst cp s3; clear HcertPem].
    destruct (pemutil_SerializeKey sv key) as [e | kp] eqn:E2;
      [discriminate | inversion HkeyPem; subst kp s4; clear HkeyPem].
    apply wrapErr_Ok_inv in Hpair. unfold liftErr in Hpair.
    destruct (tls_X509KeyPair sv _ _) eqn:E3;
      [discriminate | inversion Hpair; subst s5; clear Hpair].
    apply call_Ok_inv in Hroot as [Hroot ->].
    apply call_Ok_inv in Hinter as [Hinter ->].
    apply wrapErr_Ok_inv in Hverify. unfold liftErr in Hverify.
    destruct (x509_Verify sv cert rootPool interPool) eqn:E4;
      [discriminate | inversion Hverify; subst s'; clear Hverify].
    split; [| reflexivity].
    exists cert, key, certPem, keyPem, rootPool, interPool. auto 10.
  - intros [(cert & key & certPem & keyPem & rootPool & interPool &
             Hcert & Hkey & E1 & E2 & E3 & Hroot & Hinter & E4) ->].
    rewrite (bind_Ok _ _ _ _ _ (call_inr _ _ _ s Hcert)).
    rewrite (bind_Ok _ _ _ _ _ (call_inr _ _ _ _ Hkey)).
    unfold bind at 1, lift at 1. rewrite E1. cbn [ret].
    unfold bind at 1, lift at 1. rewrite E2. cbn [ret].
    unfold bind at 1, wrapErr at 1, liftErr at 1. rewrite E3. cbn [ret].
    rewrite (bind_Ok _ _ _ _ _ (call_inr _ _ _ _ Hroot)).
    rewrite (bind_Ok _ _ _ _ _ (call_inr _ _ _ _ Hinter)).
    unfold bind, wrapErr, liftErr. rewrite E4. reflexivity.
Qed.

(** X5.  When the certificate and the key are read but do not form a key
    pair, [VerifyClientCert] fails with "error loading x509 key pair"
    around the cause, after reading these two files only: neither pool
    is read and the chain is not verified. *)
Theorem VerifyClientCert_key_pair_first
    (sv : Services) (c : ca.offlineCA) (certFile keyFile : string) (s : state)
    (cert : x509Certificate) (key certPem keyPem : list byte) (err : error) :
  pemutil_ReadCertificate sv certFile = inr cert ->
  pemutil_Read sv keyFile = inr key ->
  pemutil_SerializeCertificate sv cert = inr certPem ->
  pemutil_SerializeKey sv key = inr keyPem ->
  tls_X509KeyPair sv (pem_EncodeToMemory sv certPem) (pem_EncodeToMemory sv keyPem)
    = Some err ->
  result (ca.VerifyClientCert sv c certFile keyFile) s
    = Err (ErrWrap err "error loading x509 key pair")
  /\ added (ca.VerifyClientCert sv c certFile keyFile) s
     = [EvReadFile certFile; EvReadFile keyFile].
Proof.
  intros Hcert Hkey E1 E2 E3.
  assert (Hrun : ca.VerifyClientCert sv c certFile keyFile s
                 = (Err (ErrWrap err "error loading x509 key pair"),
                    logged (EvReadFile keyFile) (logged (EvReadFile certFile) s))).
  { unfold ca.VerifyClientCert.
    rewrite (bind_Ok _ _ _ _ _ (call_inr _ _ _ s Hcert)).
    rewrite (bind_Ok _ _ _ _ _ (call_inr _ _ _ _ Hkey)).
    unfold bind at 1, lift at 1. rewrite E1. cbn [ret].
    unfold bind at 1, lift at 1. rewrite E2. cbn [ret].
    unfold bind at 1, wrapErr at 1, liftErr at 1. rewrite E3. reflexivity. }
  unfold result, added. rewrite Hrun. cbn.
  split; [reflexivity |].
  rewrite <- app_assoc. apply drop_app_length.
Qed.

Lemma VerifyClientCert_key_pair_first_witness :
  result (ca.VerifyClientCert (host.mismatched "linux")
            (host.offline ["ca.example.com"] []) "client.crt" "client.key") initial
    = Err (ErrWrap (ErrExternal "tls: private key does not match public key")
             "error loading x509 key pair")
  /\ added (ca.VerifyClientCert (host.mismatched "linux")
              (host.offline ["ca.example.com"] []) "client.crt" "client.key") initial
     = [EvReadFile "client.crt"; EvReadFile "client.key"].
Proof.
  apply (VerifyClientCert_key_pair_first (host.mismatched "linux")
           (host.offline ["ca.example.com"] []) "client.crt" "client.key" initial
           host.leaf (list_byte_of_string "key") (cert_Raw host.leaf)
           (list_byte_of_string "key")); reflexivity.
Defined.

(** X6.  [Sign] returns a response exactly when the authority authorizes
    the one-time token and then signs the request; the validity window
    of the request and the options of the authorization are what the
    authority signs with, and the response carries the two certificates
    it returned.  A token that is not authorized fails [Sign] with the
    error of the authorization, whatever signing would have returned. *)
Theorem Sign_outcome
    (sv : Services) (c : ca.offlineCA) (req : signapi.SignRequest) (s : state) :
  (forall resp s',
     ca.Sign sv c req s = (Ok resp, s') <->
     s' = s /\
     exists opts cert caCert,
       authority_Authorize sv (ca.authority c) (signapi.OTT req) = inr opts
       /\ authority_Sign sv (ca.authority c) (signapi.CsrPEM req)
            {| so_NotBefore := signapi.NotBefore req;
               so_NotAfter := signapi.NotAfter req |} opts
          = inr (cert, caCert)
       /\ resp = {| signapi.ServerPEM := cert;
                    signapi.CaPEM := caCert;
                    signapi.TLSOptions := authority_GetTLSOptions sv (ca.authority c) |})
  /\ (forall err,
        authority_Authorize sv (ca.authority c) (signapi.OTT req) = inl err ->
        ca.Sign sv c req s = (Err err, s)).
Proof.
  unfold ca.Sign, bind, lift. split.
  - intros resp s'.
    destruct (authority_Authorize sv (ca.authority c) (signapi.OTT req))
      as [e | opts]; cbn.
    + split; [discriminate | intros (_ & opts & cert & caCert & H & _); discriminate].
    + destruct (authority_Sign sv (ca.authority c) (signapi.CsrPEM req) _ opts)
        as [e | [cert caCert]] eqn:Hsign; cbn.
      * split; [discriminate |].
        intros (_ & opts' & cert & caCert & H & H' & _).
        inversion H; subst opts'. congruence.
      * split.
        -- intros H. inversion H; subst. split; [reflexivity |].
           exists opts, cert, caCert. auto.
        -- intros (-> & opts' & cert' & caCert' & H & H' & ->).
           inversion H; subst opts'. rewrite Hsign in H'. inversion H'. reflexivity.
  - intros err ->. reflexivity.
Qed.

Lemma Sign_outcome_witness :
  ca.Sign (host.mismatched "linux") (host.offline ["ca.example.com"] [])
    {| signapi.CsrPEM := []; signapi.OTT := "used"; signapi.NotBefore := 0;
       signapi.NotAfter := 0 |} initial
  = (Err (ErrExternal "token already used"), initial).
Proof.
  destruct (Sign_outcome (host.mismatched "linux") (host.offline ["ca.example.com"] [])
              {| signapi.CsrPEM := []; signapi.OTT := "used"; signapi.NotBefore := 0;
                 signapi.NotAfter := 0 |} initial) as [_ H].
  apply H. reflexivity.
Defined.

Lemma VerifyClientCert_sound_witness :
  result (ca.VerifyClientCert (host.services "linux")
            (host.offline ["ca.example.com"] []) "client.crt" "client.key") initial
  = Ok tt.
Proof.
  unfold result.
  erewrite (proj2 (VerifyClientCert_sound (host.services "linux")
                     (host.offline ["ca.example.com"] []) "client.crt" "client.key"
                     initial _)); [reflexivity |].
  split; [| reflexivity].
  exists host.leaf, (list_byte_of_string "key"), (cert_Raw host.leaf),
    (list_byte_of_string "key"), [host.issuer], [host.issuer].
  repeat split.
Defined.

(** X7.  [Renew] and [Revoke] without a one-time token take the client
    certificate from the transport in the same way.  Both panic, without
    any outside call, when the round tripper is not an HTTP transport or
    has no client certificate; both fail with "error parsing
    certificate" around the cause, without calling the authority, when
    the certificate does not parse; otherwise [Renew] asks the authority
    to renew exactly the certificate that [Revoke] would revoke. *)
Theorem Renew_Revoke_same_leaf
    (w : World) (sv : Services) (c : ca.offlineCA) (req : api.RevokeRequest)
    (rt : http.RoundTripper) (s : state) :
  api.OTT req = "" ->
  (forall msg, ca.peerLeaf rt = Panic msg ->
     ca.Renew w sv c rt s = (Panic msg, s) /\
     ca.Revoke w c req rt s = (Panic msg, s))
  /\ (forall asn1Data err,
        ca.peerLeaf rt = Ok asn1Data ->
        x509_ParseCertificate w asn1Data = inl err ->
        ca.Renew w sv c rt s
        = (Err (ErrWrap err "error parsing certificate"),
           logged (EvParseCertificate asn1Data) s)
        /\ ca.Revoke w c req rt s
           = (Err (ErrWrap err "error parsing certificate"),
              logged (EvParseCertificate asn1Data) s))
  /\ (forall asn1Data crt,
        ca.peerLeaf rt = Ok asn1Data ->
        x509_ParseCertificate w asn1Data = inr crt ->
        ca.Renew w sv c rt s
        = (match authority_Renew sv (ca.authority c) crt with
           | inl err => Err err
           | inr (cert, caCert) =>
               Ok {| signapi.ServerPEM := cert;
                     signapi.CaPEM := caCert;
                     signapi.TLSOptions := authority_GetTLSOptions sv (ca.authority c) |}
           end, logged (EvParseCertificate asn1Data) s)
        /\ exists opts,
             last (st_trace (snd (ca.Revoke w c req rt s)))
             = Some (EvAuthorityRevoke opts)
             /\ authority.Crt opts = Some crt).
Proof.
  intros Hott.
  assert (Hempty : nonEmpty (api.OTT req) = false) by now rewrite Hott.
  unfold ca.Renew, ca.Revoke. rewrite Hempty.
  split; [| split].
  - intros msg Hleaf. unfold bind, liftRes. rewrite Hleaf. auto.
  - intros asn1Data err Hleaf Hparse.
    unfold bind, liftRes, wrapErr, call, emit. rewrite Hleaf. cbn.
    rewrite Hparse. cbn. auto.
  - intros asn1Data crt Hleaf Hparse.
    unfold bind, liftRes, wrapErr, call, callErr, lift, emit. rewrite Hleaf. cbn.
    rewrite Hparse. cbn. split.
    + destruct (authority_Renew sv (ca.authority c) crt) as [e | [cert caCert]];
        reflexivity.
    + eexists. split.
      * destruct (authority_Revoke w (ca.authority c) _); cbn; apply last_snoc.
      * reflexivity.
Qed.

Lemma Renew_Revoke_same_leaf_witness :
  let w := scenario.world (scenario.caConfig ["ca.example.com"] []) ∅ 0 in
  let req := {| api.Serial := "1234"; api.OTT := ""; api.ReasonCode := 0;
                api.Reason := ""; api.Passive := false |} in
  ca.Renew w (host.services "linux") (host.offline ["ca.example.com"] [])
    http.OtherRoundTripper initial = (Panic "interface conversion", initial)
  /\ ca.Revoke w (host.offline ["ca.example.com"] []) req
       http.OtherRoundTripper initial = (Panic "interface conversion", initial).
Proof.
  intros w req.
  destruct (Renew_Revoke_same_leaf w (host.services "linux")
              (host.offline ["ca.example.com"] []) req http.OtherRoundTripper
              initial eq_refl) as (H & _).
  apply H. reflexivity.
Defined.

(** X8.  With a one-time token [Revoke] does not look at the transport:
    for any two round trippers, also one that is not an HTTP transport,
    it makes the same call to the authority and returns the same result,
    and no certificate is parsed. *)
Theorem Revoke_token_ignores_transport
    (w : World) (c : ca.offlineCA) (req : api.RevokeRequest)
    (rt rt' : http.RoundTripper) (s : state) :
  api.OTT req <> "" ->
  ca.Revoke w c req rt s = ca.Revoke w c req rt' s
  /\ (forall msg, result (ca.Revoke w c req rt) s <> Panic msg)
  /\ (exists opts, added (ca.Revoke w c req rt) s = [EvAuthorityRevoke opts]
                   /\ authority.Crt opts = None).
Proof.
  intros Hott.
  assert (Hne : nonEmpty (api.OTT req) = true).
  { unfold nonEmpty. destruct (String.eqb_spec (api.OTT req) "");
      [contradiction | reflexivity]. }
  unfold ca.Revoke, result, added. rewrite Hne.
  unfold bind, callErr, emit, ret. cbn.
  split; [reflexivity |].
  destruct (authority_Revoke w (ca.authority c) _); cbn.
  - split; [discriminate |]. eexists. rewrite drop_app_length. split; reflexivity.
  - split; [discriminate |]. eexists. rewrite drop_app_length. split; reflexivity.
Qed.

Lemma Revoke_token_ignores_transport_witness :
  let w := scenario.world (scenario.caConfig ["ca.example.com"] []) ∅ 0 in
  let req := {| api.Serial := "1234"; api.OTT := "token"; api.ReasonCode := 0;
                api.Reason := ""; api.Passive := false |} in
  ca.Revoke w (host.offline ["ca.example.com"] []) req http.OtherRoundTripper initial
  = ca.Revoke w (host.offline ["ca.example.com"] []) req
      (host.transport (list_byte_of_string "der")) initial.
Proof.
  intros w req.
  destruct (Revoke_token_ignores_transport w (host.offline ["ca.example.com"] [])
              req http.OtherRoundTripper (host.transport (list_byte_of_string "der"))
              initial) as (H & _).
  - discriminate.
  - exact H.
Defined.

(** X9.  [GenerateToken] computes the audience before anything else:
    with a configuration without DNS names it panics for every token
    type, subject and provisioner, also for the provisioners that never
    use the audience, and before any prompt, process or key is touched. *)
Theorem GenerateToken_needs_dns_name
    (w : World) (c : ca.offlineCA) (ctx : cli.Context) (typ : Z)
    (subject : string) (sans : list string) (notBefore notAfter : Z) (s : state) :
  authority.DNSNames (ca.config c) = [] ->
  exists msg,
    ca.GenerateToken w c ctx typ subject sans notBefore notAfter s = (Panic msg, s).
Proof.
  intros Hdns. unfold ca.GenerateToken, ca.Audience, ca.firstDNSName.
  rewrite Hdns. cbn. destruct (typ =? ca.revokeType); eexists; reflexivity.
Qed.

Lemma GenerateToken_needs_dns_name_witness :
  exists msg,
    ca.GenerateToken (scenario.world (scenario.caConfig [] []) ∅ 0)
      (host.offline [] [provisioner.OIDC
                          {| provisioner.ClientID := "id";
                             provisioner.ClientSecret := "secret";
                             provisioner.ConfigurationEndpoint := "https://idp" |}])
      (scenario.context [] []) ca.signType "user@example.com" [] 0 0 initial
    = (Panic msg, initial).
Proof.
  apply GenerateToken_needs_dns_name. reflexivity.
Defined.

(** X10.  When the provisioner that was selected is a JWK provisioner
    without encrypted key, [GenerateToken] fails with an error that
    names the key id of the provisioner, in the state the selection left:
    nothing is decrypted and no password is asked. *)
Theorem GenerateToken_jwk_without_key
    (w : World) (c : ca.offlineCA) (ctx : cli.Context) (typ : Z)
    (subject : string) (sans : list string) (notBefore notAfter : Z) (s s1 : state)
    (dns : string) (rest : list string) (ac : authority.AuthConfig)
    (prov : provisioner.JWKData) :
  authority.DNSNames (ca.config c) = dns :: rest ->
  authority.AuthorityConfig (ca.config c) = Some ac ->
  ca.provisionerPrompt w ctx (authority.Provisioners ac) s
    = (Ok (provisioner.JWK prov), s1) ->
  provisioner.EncryptedKey prov = "" ->
  ca.GenerateToken w c ctx typ subject sans notBefore notAfter s
  = (Err (ErrNew ("provisioner '" +:+ provisioner.KeyID prov +:+
                  "' does not have an 'encryptedKey' property")), s1)
  /\ forall data opts, EvDecrypt data opts ∈ st_trace s1 ->
                       EvDecrypt data opts
                         ∈ st_trace (snd (ca.provisionerPrompt w ctx
                                            (authority.Provisioners ac) s)).
Proof.
  intros Hdns Hac Hprompt Hempty. split.
  - unfold ca.GenerateToken. cbv zeta.
    unfold ca.Audience, ca.Provisioners, ca.firstDNSName. rewrite Hdns, Hac. cbn.
    destruct (typ =? ca.revokeType); unfold bind at 1 2 3, liftRes;
      rewrite Hprompt; unfold nonEmpty; rewrite Hempty; reflexivity.
  - intros data opts Hin. now rewrite Hprompt.
Qed.

Lemma GenerateToken_jwk_without_key_witness :
  let prov := {| provisioner.Name := "admin"; provisioner.KeyID := "kid-admin";
                 provisioner.EncryptedKey := "" |} in
  let c := host.offline ["ca.example.com"] [provisioner.JWK prov] in
  result (ca.GenerateToken (scenario.world (ca.config c) ∅ 0) c
            (scenario.context [] []) ca.signType "user@example.com" [] 0 0) initial
  = Err (ErrNew "provisioner 'kid-admin' does not have an 'encryptedKey' property").
Proof.
  intros prov c.
  destruct (GenerateToken_jwk_without_key (scenario.world (ca.config c) ∅ 0) c
              (scenario.context [] []) ca.signType "user@example.com" [] 0 0
              initial initial "ca.example.com" []
              {| authority.Provisioners := [provisioner.JWK prov] |} prov)
    as [H _]; [reflexivity | reflexivity | reflexivity | reflexivity |].
  unfold result. now rewrite H.
Defined.

(** ** White space around the output of the OAuth helper *)

Lemma trimLeft_first (s : string) (c : ascii) :
  firstChar (strings.trimLeft s) = Some c -> strings.isSpace c = false.
Proof.
  induction s as [| d s IH]; cbn -[strings.isSpace]; [discriminate |].
  destruct (strings.isSpace d) eqn:Hd; [exact IH |].
  cbn. intros H. now inversion H; subst.
Qed.

Lemma trimLeft_last (s : string) :
  strings.trimLeft s <> EmptyString -> lastChar (strings.trimLeft s) = lastChar s.
Proof.
  induction s as [| d s IH]; cbn -[strings.isSpace]; [congruence |].
  destruct (strings.isSpace d) eqn:Hd; [| reflexivity].
  intros Hne. rewrite (IH Hne).
  destruct (lastChar s) eqn:Hl; [reflexivity |].
  exfalso. apply Hne.
  assert (Hs : s = EmptyString).
  { destruct s as [| e s']; [reflexivity |]. cbn in Hl.
    destruct (lastChar s'); discriminate. }
  now subst s.
Qed.

Lemma rev_app_first (s acc : string) :
  firstChar (String.rev_app s acc)
  = match lastChar s with Some c => Some c | None => firstChar acc end.
Proof.
  revert acc. induction s as [| d s IH]; intros acc; cbn; [reflexivity |].
  rewrite IH. now destruct (lastChar s).
Qed.

Lemma rev_app_last (s acc : string) :
  lastChar (String.rev_app s acc)
  = match lastChar acc with Some c => Some c | None => firstChar s end.
Proof.
  revert acc. induction s as [| d s IH]; intros acc; cbn.
  - now destruct (lastChar acc).
  - rewrite IH. cbn. now destruct (lastChar acc).
Qed.

Lemma lastChar_None (s : string) : lastChar s = None -> s = EmptyString.
Proof.
  destruct s as [| c s]; [reflexivity |]. cbn. destruct (lastChar s); discriminate.
Qed.

Lemma TrimSpace_trimmed (s : string) : trimmed (strings.TrimSpace s).
Proof.
  unfold strings.TrimSpace, String.rev.
  set (a := strings.trimLeft s).
  set (b := strings.trimLeft (String.rev_app a "")).
  split; intros c Hc.
  - rewrite rev_app_first in Hc. cbn in Hc.
    destruct (lastChar b) as [d |] eqn:Hb; [| discriminate].
    inversion Hc; subst d; clear Hc.
    assert (Hne : b <> EmptyString) by (intros E; rewrite E in Hb; discriminate).
    unfold b in Hb. rewrite trimLeft_last in Hb by exact Hne.
    rewrite rev_app_last in Hb. cbn in Hb.
    now apply (trimLeft_first s).
  - rewrite rev_app_last in Hc. cbn in Hc.
    now apply (trimLeft_first (String.rev_app a "")).
Qed.

(** X11.  When the provisioner that was selected is an OIDC provisioner,
    [GenerateToken] builds no token itself: it runs the program with
    the arguments [oauth --oidc --bare] and the endpoint, the client id
    and the client secret of the provisioner, and returns the output of
    that process without the white space around it; a failure of the
    process is the failure of [GenerateToken].  Nothing is decrypted. *)
Theorem GenerateToken_oidc
    (w : World) (c : ca.offlineCA) (ctx : cli.Context) (typ : Z)
    (subject : string) (sans : list string) (notBefore notAfter : Z) (s s1 : state)
    (dns : string) (rest : list string) (ac : authority.AuthConfig)
    (p : provisioner.OIDCData) :
  authority.DNSNames (ca.config c) = dns :: rest ->
  authority.AuthorityConfig (ca.config c) = Some ac ->
  ca.provisionerPrompt w ctx (authority.Provisioners ac) s
    = (Ok (provisioner.OIDC p), s1) ->
  let args := ["oauth"; "--oidc"; "--bare";
               "--provider"; provisioner.ConfigurationEndpoint p;
               "--client-id"; provisioner.ClientID p;
               "--client-secret"; provisioner.ClientSecret p] in
  snd (ca.GenerateToken w c ctx typ subject sans notBefore notAfter s)
    = logged (EvCommand (os_Args0 w) args) s1
  /\ (forall out,
        fst (cmd_Output w (os_Args0 w) args) = inr out ->
        result (ca.GenerateToken w c ctx typ subject sans notBefore notAfter) s
        = Ok (strings.TrimSpace out))
  /\ (forall tok,
        result (ca.GenerateToken w c ctx typ subject sans notBefore notAfter) s
        = Ok tok ->
        trimmed tok /\
        exists out, fst (cmd_Output w (os_Args0 w) args) = inr out
                    /\ tok = strings.TrimSpace out)
  /\ (forall err,
        fst (cmd_Output w (os_Args0 w) args) = inl err ->
        exists msg,
          result (ca.GenerateToken w c ctx typ subject sans notBefore notAfter) s
          = Err (ErrWrap err msg)).
Proof.
  intros Hdns Hac Hprompt args.
  assert (Hrun : ca.GenerateToken w c ctx typ subject sans notBefore notAfter s
                 = bind (exec.Step w args)
                     (fun out => ret (strings.TrimSpace out)) s1).
  { unfold ca.GenerateToken. cbv zeta.
    unfold ca.Audience, ca.Provisioners, ca.firstDNSName. rewrite Hdns, Hac. cbn.
    destruct (typ =? ca.revokeType); unfold bind at 1 2 3, liftRes;
      rewrite Hprompt; reflexivity. }
  unfold result. rewrite Hrun. unfold exec.Step, bind, emit, ret, raise.
  fold (logged (EvCommand (os_Args0 w) args) s1).
  destruct (cmd_Output w (os_Args0 w) args) as [[err | out] stderr]; cbn.
  - repeat split; try discriminate.
    intros err' H. inversion H; subst. eexists. reflexivity.
  - repeat split; try discriminate.
    + intros out' H. now inversion H.
    + inversion H; subst. apply TrimSpace_trimmed.
    + inversion H; subst. apply TrimSpace_trimmed.
    + inversion H; subst. eauto.
Qed.

Lemma GenerateToken_oidc_witness :
  let p := {| provisioner.ClientID := "id"; provisioner.ClientSecret := "secret";
              provisioner.ConfigurationEndpoint := "https://idp.example.com" |} in
  let c := host.offline ["ca.example.com"] [provisioner.OIDC p] in
  let w := scenario.world (ca.config c) ∅ 0 in
  snd (ca.GenerateToken w c (scenario.context [] []) ca.signType
         "user@example.com" [] 0 0 initial)
  = logged (EvCommand "step"
              ["oauth"; "--oidc"; "--bare"; "--provider"; "https://idp.example.com";
               "--client-id"; "id"; "--client-secret"; "secret"]) initial.
Proof.
  intros p c w.
  destruct (GenerateToken_oidc w c (scenario.context [] []) ca.signType
              "user@example.com" [] 0 0 initial initial "ca.example.com" []
              {| authority.Provisioners := [provisioner.OIDC p] |} p)
    as [H _]; [reflexivity | reflexivity | reflexivity |].
  exact H.
Defined.

(** X12.  When the provisioner that was selected is a cloud provisioner
    (GCP, AWS or Azure), [GenerateToken] first copies the flag of the
    provisioner into [sharedContext.DisableCustomSANs], then asks the
    identity token of the subject for the URL of the CA, "https://" and
    the first DNS name, and returns what the request returns.  The flag
    stays assigned when the request fails. *)
Theorem GenerateToken_cloud
    (w : World) (c : ca.offlineCA) (ctx : cli.Context) (typ : Z)
    (subject : string) (sans : list string) (notBefore notAfter : Z) (s s1 : state)
    (dns : string) (rest : list string) (ac : authority.AuthConfig)
    (p : provisioner.Interface) (kind : provisioner.cloud) (d : bool) :
  authority.DNSNames (ca.config c) = dns :: rest ->
  authority.AuthorityConfig (ca.config c) = Some ac ->
  ca.provisionerPrompt w ctx (authority.Provisioners ac) s = (Ok p, s1) ->
  cloudProvisioner p = Some (kind, d) ->
  let url := "https://" +:+ dns in
  ca.GenerateToken w c ctx typ subject sans notBefore notAfter s
  = (match cloud_GetIdentityToken w kind subject url with
     | inl err => Err err
     | inr tok => Ok tok
     end,
     logged (EvIdentityToken kind subject url) (withDisableCustomSANs d s1))
  /\ st_DisableCustomSANs
       (snd (ca.GenerateToken w c ctx typ subject sans notBefore notAfter s)) = d.
Proof.
  intros Hdns Hac Hprompt Hcloud url.
  assert (Hrun : ca.GenerateToken w c ctx typ subject sans notBefore notAfter s
                 = ca.identityToken w c kind d subject s1).
  { unfold ca.GenerateToken. cbv zeta.
    unfold ca.Audience, ca.Provisioners, ca.firstDNSName. rewrite Hdns, Hac. cbn.
    destruct (typ =? ca.revokeType); unfold bind at 1 2 3, liftRes;
      rewrite Hprompt;
      destruct p; cbn in Hcloud; inversion Hcloud; subst; reflexivity. }
  rewrite Hrun. unfold ca.identityToken, ca.CaURL, ca.firstDNSName.
  rewrite Hdns. cbn. fold url.
  unfold bind, set_DisableCustomSANs, liftRes, call, emit, ret, raise. cbn.
  destruct (cloud_GetIdentityToken w kind subject url); cbn; split; reflexivity.
Qed.

Lemma GenerateToken_cloud_witness :
  let c := host.offline ["ca.example.com"] [provisioner.AWS true] in
  let w := scenario.world (ca.config c) ∅ 0 in
  st_DisableCustomSANs
    (snd (ca.GenerateToken w c (scenario.context [] []) ca.signType
            "user@example.com" [] 0 0 initial)) = true.
Proof.
  intros c w.
  destruct (GenerateToken_cloud w c (scenario.context [] []) ca.signType
              "user@example.com" [] 0 0 initial initial "ca.example.com" []
              {| authority.Provisioners := [provisioner.AWS true] |}
              (provisioner.AWS true) provisioner.CloudAWS true)
    as [_ H]; [reflexivity | reflexivity | reflexivity | reflexivity |].
  exact H.
Defined.

(* ===================================================================== *)
(** * Further properties of package [jwt]                                 *)
(* ===================================================================== *)

(** X13.  Where [readPayload] takes the payload from.  Without a file
    name and with nothing piped into standard input (size 0, not a
    pipe) the payload is the empty object and standard input is not
    read.  With the name "-" standard input is decoded without being
    examined first.  With any other name only that file is read: a read
    error is a file error naming the file and a decoding error names the
    file, while a decoding error on standard input names STDIN. *)
Theorem readPayload_sources (w : World) (filename : string) (s : state) :
  (filename = "" ->
   (stdin_Stat w = inr (0, false) ->
    jwt.readPayload w filename s = (Ok ∅, logged EvStdinStat s))
   /\ (forall err, stdin_Stat w = inl err ->
         jwt.readPayload w filename s
         = (Err (ErrWrap err "error reading data"), logged EvStdinStat s))
   /\ (forall size pipe, stdin_Stat w = inr (size, pipe) ->
         size <> 0 \/ pipe = true ->
         jwt.readPayload w filename s
         = (match json_Decode w (stdin_data w) with
            | inr v => Ok v
            | inl err => Err (ErrWrap err "error decoding JSON from STDIN")
            end, logged EvStdinRead (logged EvStdinStat s))))
  /\ (filename = "-" ->
      jwt.readPayload w filename s
      = (match json_Decode w (stdin_data w) with
         | inr v => Ok v
         | inl err => Err (ErrWrap err "error decoding JSON from STDIN")
         end, logged EvStdinRead s))
  /\ (filename <> "" -> filename <> "-" ->
      jwt.readPayload w filename s
      = (match fs_ReadFile w filename with
         | inl err => Err (ErrFile err filename)
         | inr b =>
             match json_Decode w b with
             | inr v => Ok v
             | inl err => Err (ErrWrap err ("error decoding JSON from " +:+ filename))
             end
         end, logged (EvReadFile filename) s)).
Proof.
  unfold jwt.readPayload. split; [| split].
  - intros ->. cbn. split; [| split].
    + intros Hstat. unfold bind, wrapErr, call, emit. cbn. rewrite Hstat. reflexivity.
    + intros err Hstat. unfold bind, wrapErr, call, emit. cbn. rewrite Hstat.
      reflexivity.
    + intros size pipe Hstat Hdata.
      unfold bind, wrapErr, call, emit, lift. cbn. rewrite Hstat. cbn.
      assert (Hc : (size =? 0) && negb pipe = false).
      { destruct Hdata as [Hsize | ->].
        - destruct (Z.eqb_spec size 0); [contradiction | reflexivity].
        - apply andb_false_r. }
      rewrite Hc. destruct (json_Decode w (stdin_data w)); reflexivity.
  - intros ->. cbn. unfold bind, wrapErr, emit, lift.
    destruct (json_Decode w (stdin_data w)); reflexivity.
  - intros H1 H2.
    destruct (String.eqb_spec filename ""); [contradiction |].
    destruct (String.eqb_spec filename "-"); [contradiction |].
    unfold bind, wrapErr, call, emit, lift. cbn.
    destruct (fs_ReadFile w filename) as [err | b]; cbn; [reflexivity |].
    destruct (json_Decode w b); reflexivity.
Qed.

Lemma readPayload_sources_witness :
  jwt.readPayload (scenario.world (scenario.caConfig [] []) {[ "k" := JNull ]} 0)
    "" initial
  = (Ok ∅, logged EvStdinStat initial).
Proof.
  destruct (readPayload_sources
              (scenario.world (scenario.caConfig [] []) {[ "k" := JNull ]} 0)
              "" initial) as ((H & _) & _); [reflexivity |].
  apply H. reflexivity.
Defined.

(** X14.  With two or more positional arguments the sign command fails
    with the usage error "too many arguments" in the state it started
    in: nothing is read, no key is parsed, the clock is not read and
    nothing is printed. *)
Theorem signAction_too_many_arguments
    (w : World) (ctx : cli.Context) (s : state) (a b : string) (rest : list string) :
  cli.Args ctx = a :: b :: rest ->
  jwt.signAction w ctx s = (Err (ErrUsage TooManyArguments), s).
Proof.
  intros Hargs.
  unfold jwt.signAction, jwt.signBuilder, jwt.prepare, jwt.readArgs.
  now rewrite Hargs.
Qed.

Lemma signAction_too_many_arguments_witness :
  jwt.signAction (scenario.world (scenario.caConfig [] []) ∅ 0)
    (scenario.context ["a.json"; "b.json"] [("key", cli.VString "key.pem")]) initial
  = (Err (ErrUsage TooManyArguments), initial).
Proof.
  apply (signAction_too_many_arguments _ _ _ "a.json" "b.json" []). reflexivity.
Defined.

Lemma checkKey_Ok_inv (w : World) (jwk : JSONWebKey) (s s' : state) :
  jwt.checkKey w jwk s = (Ok tt, s') ->
  IsPublic jwk = false
  /\ (Use jwk = "sig" \/ Use jwk = "")
  /\ Algorithm jwk <> ""
  /\ jose_ValidateJWK w jwk = None.
Proof.
  unfold jwt.checkKey, jose.ValidateJWK.
  destruct (IsPublic jwk); [discriminate |].
  destruct (String.eqb_spec (Use jwk) "sig") as [Hu | Hu];
    destruct (String.eqb_spec (Use jwk) "") as [Hu' | Hu']; cbn;
    try discriminate;
    (destruct (String.eqb_spec (Algorithm jwk) "") as [Ha | Ha];
     [discriminate |]);
    (destruct (jose_ValidateJWK w jwk); [discriminate |]);
    intros _; auto.
Qed.

(** X15.  The key policy of the sign command.  A token is printed only
    with a key that is not public, whose use is absent or "sig", that
    has an algorithm, and that [ValidateJWK] accepts.  That key is the
    one parsed from [--key], or from [--jwks] when [--key] is empty and
    [--kid] is given; the parser is always told that the use is "sig",
    and the key id to look for when there is one.  The signature of
    the token is made with this key and its algorithm. *)
Theorem signing_key_policy
    (w : World) (ctx : cli.Context) (s : state) (t : jose.JWS) :
  signs w ctx s t ->
  exists jwk : JSONWebKey,
    IsPublic jwk = false
    /\ (Use jwk = "sig" \/ Use jwk = "")
    /\ Algorithm jwk <> ""
    /\ jose_ValidateJWK w jwk = None
    /\ ((cli.String ctx "key" <> "" /\ cli.String ctx "jwks" = "" /\
         jose_ParseKey w (cli.String ctx "key") (jwt.parseOptions ctx) = inr jwk)
        \/ (cli.String ctx "key" = "" /\ cli.String ctx "jwks" <> "" /\
            cli.String ctx "kid" <> "" /\
            WithKid (cli.String ctx "kid") ∈ jwt.parseOptions ctx /\
            jose_ParseKeySet w (cli.String ctx "jwks") (jwt.parseOptions ctx)
            = inr jwk))
    /\ head (jwt.parseOptions ctx) = Some (WithUse "sig")
    /\ jose_sign w (Algorithm jwk) (Key jwk)
         (jose.signingInput (jose.jws_protected t) (jose.jws_raw t))
       = inr (jose.jws_signature t).
Proof.
  intros H.
  apply signs_inv in H as (payload & jwk & c & s1 & s2 & Hprep & _ & _ & _ & Hsig).
  apply prepare_Ok_inv in Hprep
    as (s0 & s2' & s3 & _ & Hflags & Hkey & Hcheck & _).
  apply checkKey_Ok_inv in Hcheck as (Hpub & Huse & Halg & Hvalid).
  apply validateKeyFlags_Ok_inv in Hflags as [_ Hflags].
  apply readKey_Ok_inv in Hkey.
  exists jwk. repeat (split; [assumption |]).
  split; [| split; [reflexivity | exact Hsig]].
  destruct Hflags as [(Hk & Hj) | (Hk & Hj & Hkid)];
    destruct Hkey as [(Hk' & Hparse & _) | (Hk' & Hj' & Hparse & _)];
    try contradiction.
  - left. auto.
  - right. repeat (split; [assumption |]). split; [| exact Hparse].
    unfold jwt.parseOptions, nonEmpty.
    destruct (String.eqb_spec (cli.String ctx "kid") ""); [contradiction |].
    cbn [negb]. rewrite !elem_of_app. right. right. left.
    now apply list_elem_of_singleton.
Qed.

Lemma signing_key_policy_witness :
  let w := scenario.world (scenario.caConfig [] []) ∅ 0 in
  let ctx := scenario.context []
               [("jwks", cli.VString "keys.jwks"); ("kid", cli.VString "key-1");
                ("subtle", cli.VBool true)] in
  exists jwk : JSONWebKey,
    IsPublic jwk = false
    /\ jose_ParseKeySet w "keys.jwks" [WithUse "sig"; WithKid "key-1"; WithSubtle true]
       = inr jwk.
Proof.
  intros w ctx.
  destruct (signing_key_policy w ctx initial (tokenOf w ctx initial))
    as (jwk & Hpub & _ & _ & _ & Hkey & _).
  - apply runSign_signs. vm_compute. reflexivity.
  - exists jwk. split; [exact Hpub |].
    destruct Hkey as [(Hk & _) | (_ & _ & _ & _ & Hparse)].
    + exfalso. apply Hk. reflexivity.
    + exact Hparse.
Defined.

(** X16.  The header of a printed token has the type "JWT" and the
    algorithm of the signing key, and no member other than "typ", "alg"
    and "kid". *)
Theorem header_members
    (w : World) (ctx : cli.Context) (s : state) (t : jose.JWS) :
  signs w ctx s t ->
  exists (payload : object) (jwk : JSONWebKey) (c : jose.Claims) (s1 : state),
    jwt.prepare w ctx s = (Ok (payload, jwk, c), s1)
    /\ jose.jws_header t !! "typ" = Some (JStr "JWT")
    /\ jose.jws_header t !! "alg" = Some (JStr (Algorithm jwk))
    /\ (forall k v, jose.jws_header t !! k = Some v ->
                    k = "typ" \/ k = "alg" \/ k = "kid").
Proof.
  intros H.
  apply signs_inv in H as (payload & jwk & c & s1 & s2 & Hprep & _ & _ & Hh & _).
  exists payload, jwk, c, s1. split; [exact Hprep |].
  rewrite Hh. unfold jwt.signerOptions, jose.WithType, jose.WithHeader.
  destruct (negb (cli.Bool ctx "no-kid") && negb (String.eqb (KeyID jwk) ""));
    cbn [jose.ExtraHeaders].
  - split; [| split].
    + apply lookup_union_Some_l. rewrite lookup_insert_ne by discriminate.
      apply lookup_insert_eq.
    + rewrite lookup_union_r; [apply lookup_singleton_eq |].
      rewrite !lookup_insert_ne by discriminate. apply lookup_empty.
    + intros k v Hk. apply lookup_union_Some_raw in Hk as [Hk | [_ Hk]].
      * destruct (decide (k = "kid")) as [-> | Hn]; [auto |].
        rewrite lookup_insert_ne in Hk by congruence.
        destruct (decide (k = "typ")) as [-> | Hn']; [auto |].
        rewrite lookup_insert_ne in Hk by congruence.
        rewrite lookup_empty in Hk. discriminate.
      * apply lookup_singleton_Some in Hk as [<- _]. auto.
  - split; [| split].
    + apply lookup_union_Some_l. apply lookup_insert_eq.
    + rewrite lookup_union_r; [apply lookup_singleton_eq |].
      rewrite !lookup_insert_ne by discriminate. apply lookup_empty.
    + intros k v Hk. apply lookup_union_Some_raw in Hk as [Hk | [_ Hk]].
      * destruct (decide (k = "typ")) as [-> | Hn']; [auto |].
        rewrite lookup_insert_ne in Hk by congruence.
        rewrite lookup_empty in Hk. discriminate.
      * apply lookup_singleton_Some in Hk as [<- _]. auto.
Qed.

Lemma header_members_witness :
  let w := scenario.world (scenario.caConfig [] []) ∅ 0 in
  let ctx := scenario.context []
               [("key", cli.VString "key.pem"); ("subtle", cli.VBool true)] in
  jose.jws_header (tokenOf w ctx initial) !! "alg" = Some (JStr "ES256")
  /\ jose.jws_header (tokenOf w ctx initial) !! "typ" = Some (JStr "JWT").
Proof.
  intros w ctx.
  destruct (header_members w ctx initial (tokenOf w ctx initial))
    as (payload & jwk & c & s1 & Hprep & Htyp & Halg & _).
  - apply runSign_signs. vm_compute. reflexivity.
  - vm_compute in Hprep. inversion Hprep; subst jwk. auto.
Defined.

Lemma signs_claims (w : World) (ctx : cli.Context) (s s0 : state) (t : jose.JWS)
    (payload : object) :
  signs w ctx s t ->
  jwt.readArgs w ctx s = (Ok payload, s0) ->
  exists c : jose.Claims,
    jose.jws_claims t = payload ∪ (jwt.audOverride c ∪ (jose.normalize c ∪ ∅))
    /\ jose.Issuer c = cli.String ctx "iss"
    /\ jose.Subject c = cli.String ctx "sub"
    /\ jose.Audience c = cli.StringSlice ctx "aud"
    /\ jose.Expiry c = jose.UnixNumericDate (cli.Int64 ctx "exp")
    /\ (cli.Int64 ctx "nbf" <> 0 -> jose.NotBefore c = Some (cli.Int64 ctx "nbf"))
    /\ (cli.Int64 ctx "iat" <> 0 -> jose.IssuedAt c = Some (cli.Int64 ctx "iat"))
    /\ (cli.String ctx "jti" <> "" -> jose.ID c = cli.String ctx "jti").
Proof.
  intros Hs Hread.
  apply signs_inv in Hs as (payload' & jwk & c & s1 & s2 & Hprep & _ & Hc & _).
  apply prepare_Ok_inv in Hprep
    as (s0' & s2' & s3 & Hread' & _ & _ & _ & _ & Hclaims & _).
  rewrite Hread in Hread'. inversion Hread'; subst payload' s0'; clear Hread'.
  apply addClaims_Ok_inv in Hclaims as (Hi & Hsub & Ha & He & Hn & Hiat & _ & Hid).
  exists c. repeat (split; [assumption |]).
  split; [| split].
  - intros Hnz. rewrite Hn. unfold jose.UnixNumericDate.
    now destruct (Z.eqb_spec (cli.Int64 ctx "nbf") 0).
  - intros Hnz. rewrite Hiat. unfold jose.UnixNumericDate.
    now destruct (Z.eqb_spec (cli.Int64 ctx "iat") 0).
  - intros Hnz.
    destruct (String.eqb_spec (cli.String ctx "jti") ""); [contradiction |].
    cbn in Hid. apply Hid.
Qed.

(** X17.  How the audiences of the flags are written, when the payload
    has no member "aud": no audience gives no claim, one audience gives
    a string, and two or more give the array of all of them in the order
    of the command line. *)
Theorem audience_encoding
    (w : World) (ctx : cli.Context) (s s0 : state) (t : jose.JWS) (payload : object) :
  signs w ctx s t ->
  jwt.readArgs w ctx s = (Ok payload, s0) ->
  payload !! "aud" = None ->
  jose.jws_claims t !! "aud"
  = match cli.StringSlice ctx "aud" with
    | [] => None
    | [v] => Some (JStr v)
    | v :: v' :: rest => Some (JArr (JStr v :: JStr v' :: (JStr <$> rest)))
    end.
Proof.
  intros Hs Hread Hnone.
  destruct (signs_claims _ _ _ _ _ _ Hs Hread) as (c & Hc & _ & _ & Ha & _).
  rewrite Hc. rewrite lookup_union_r by exact Hnone.
  unfold jwt.audOverride. rewrite <- Ha.
  destruct (jose.Audience c) as [| v [| v' rest]] eqn:Haud.
  - rewrite lookup_union_r by apply lookup_empty.
    rewrite lookup_union_l by apply lookup_empty.
    now rewrite normalize_aud, Haud.
  - apply lookup_union_Some_l. apply lookup_singleton_eq.
  - rewrite lookup_union_r by apply lookup_empty.
    rewrite lookup_union_l by apply lookup_empty.
    now rewrite normalize_aud, Haud.
Qed.

Lemma audience_encoding_witness :
  let w := scenario.world (scenario.caConfig [] []) ∅ 0 in
  let ctx := scenario.context []
               [("key", cli.VString "key.pem"); ("iss", cli.VString "issuer");
                ("sub", cli.VString "subject");
                ("aud", cli.VStringSlice ["a"; "b"; "c"]); ("exp", cli.VInt64 60)] in
  jose.jws_claims (tokenOf w ctx initial) !! "aud"
  = Some (JArr [JStr "a"; JStr "b"; JStr "c"]).
Proof.
  intros w ctx.
  apply (audience_encoding w ctx initial (logged EvStdinStat initial)
           (tokenOf w ctx initial) ∅).
  - apply runSign_signs. vm_compute. reflexivity.
  - reflexivity.
  - reflexivity.
Defined.

(** X18.  The claims of the flags in the printed token, for the names
    the payload does not have: the issuer, the subject and the
    identifier are strings equal to their flags, the expiry, the
    not-before and the issued-at are the numbers of their flags, and a
    flag that is empty or zero leaves no member "iss", "sub" or "exp"
    rather than an empty one. *)
Theorem flag_claims
    (w : World) (ctx : cli.Context) (s s0 : state) (t : jose.JWS) (payload : object) :
  signs w ctx s t ->
  jwt.readArgs w ctx s = (Ok payload, s0) ->
  (payload !! "iss" = None ->
   jose.jws_claims t !! "iss"
   = if String.eqb (cli.String ctx "iss") "" then None
     else Some (JStr (cli.String ctx "iss")))
  /\ (payload !! "sub" = None ->
      jose.jws_claims t !! "sub"
      = if String.eqb (cli.String ctx "sub") "" then None
        else Some (JStr (cli.String ctx "sub")))
  /\ (payload !! "exp" = None ->
      jose.jws_claims t !! "exp"
      = if cli.Int64 ctx "exp" =? 0 then None
        else Some (JNum (inject_Z (cli.Int64 ctx "exp"))))
  /\ (payload !! "nbf" = None -> cli.Int64 ctx "nbf" <> 0 ->
      jose.jws_claims t !! "nbf" = Some (JNum (inject_Z (cli.Int64 ctx "nbf"))))
  /\ (payload !! "iat" = None -> cli.Int64 ctx "iat" <> 0 ->
      jose.jws_claims t !! "iat" = Some (JNum (inject_Z (cli.Int64 ctx "iat"))))
  /\ (payload !! "jti" = None -> cli.String ctx "jti" <> "" ->
      jose.jws_claims t !! "jti" = Some (JStr (cli.String ctx "jti"))).
Proof.
  intros Hs Hread.
  destruct (signs_claims _ _ _ _ _ _ Hs Hread)
    as (c & Hc & Hi & Hsub & _ & He & Hn & Hiat & Hid).
  assert (Hlook : forall k, k <> "aud" -> payload !! k = None ->
                            jose.jws_claims t !! k = jose.normalize c !! k).
  { intros k Hk Hnone. rewrite Hc. rewrite lookup_union_r by exact Hnone.
    rewrite lookup_union_r by (now apply audOverride_other).
    now rewrite lookup_union_l by apply lookup_empty. }
  split; [| split; [| split; [| split; [| split]]]].
  - intros Hnone. rewrite Hlook by (discriminate || exact Hnone).
    rewrite normalize_iss, Hi. unfold nonEmpty.
    now destruct (String.eqb (cli.String ctx "iss") "").
  - intros Hnone. rewrite Hlook by (discriminate || exact Hnone).
    rewrite normalize_sub, Hsub. unfold nonEmpty.
    now destruct (String.eqb (cli.String ctx "sub") "").
  - intros Hnone. rewrite Hlook by (discriminate || exact Hnone).
    rewrite normalize_exp, He. unfold jose.UnixNumericDate.
    now destruct (cli.Int64 ctx "exp" =? 0).
  - intros Hnone Hnz. rewrite Hlook by (discriminate || exact Hnone).
    now rewrite normalize_nbf, (Hn Hnz).
  - intros Hnone Hnz. rewrite Hlook by (discriminate || exact Hnone).
    now rewrite normalize_iat, (Hiat Hnz).
  - intros Hnone Hnz. rewrite Hlook by (discriminate || exact Hnone).
    rewrite normalize_jti, (Hid Hnz). unfold nonEmpty.
    destruct (String.eqb_spec (cli.String ctx "jti") ""); [contradiction | reflexivity].
Qed.

Lemma flag_claims_witness :
  let w := scenario.world (scenario.caConfig [] []) ∅ 0 in
  let ctx := scenario.context []
               [("key", cli.VString "key.pem"); ("iss", cli.VString "issuer");
                ("exp", cli.VInt64 60); ("subtle", cli.VBool true)] in
  jose.jws_claims (tokenOf w ctx initial) !! "iss" = Some (JStr "issuer")
  /\ jose.jws_claims (tokenOf w ctx initial) !! "sub" = None
  /\ jose.jws_claims (tokenOf w ctx initial) !! "exp" = Some (JNum (inject_Z 60)).
Proof.
  intros w ctx.
  destruct (flag_claims w ctx initial (logged EvStdinStat initial)
              (tokenOf w ctx initial) ∅) as (Hi & Hs & He & _).
  - apply runSign_signs. vm_compute. reflexivity.
  - reflexivity.
  - split; [exact (Hi eq_refl) |]. split; [exact (Hs eq_refl) | exact (He eq_refl)].
Defined.

(** ** What the sign command leaves untouched *)

Section keeps_facts.

Context {X A B : Type} (f : state -> X).

Lemma keeps_ret (a : A) : keeps f (ret a).
Proof. intros s. reflexivity. Qed.

Lemma keeps_raise (e : error) : keeps f (@raise A e).
Proof. intros s. reflexivity. Qed.

Lemma keeps_lift (r : error + A) : keeps f (lift r).
Proof. intros s. destruct r; reflexivity. Qed.

Lemma keeps_liftRes (r : res A) : keeps f (liftRes r).
Proof. intros s. reflexivity. Qed.

Lemma keeps_wrapErr (g : error -> error) (m : M A) :
  keeps f m -> keeps f (wrapErr g m).
Proof.
  intros H s. specialize (H s). unfold wrapErr.
  destruct (m s) as [[a | e | msg] s1]; exact H.
Qed.

Lemma keeps_bind (m : M A) (k : A -> M B) :
  keeps f m -> (forall a, keeps f (k a)) -> keeps f (bind m k).
Proof.
  intros Hm Hk s. specialize (Hm s). unfold bind.
  destruct (m s) as [[a | e | msg] s1]; cbn in Hm; try exact Hm.
  rewrite <- Hm. apply Hk.
Qed.

End keeps_facts.


Lemma lines_logged (e : event) (s : state) :
  lines (logged e s) = lines s ++ (if isPrintln e then [e] else []).
Proof.
  unfold lines. cbn. rewrite filter_app. f_equal.
  destruct (isPrintln e) eqn:He.
  - rewrite filter_cons_True by exact He. reflexivity.
  - rewrite filter_cons_False by (rewrite He; discriminate). reflexivity.
Qed.

Lemma framed_lines : framed lines.
Proof.
  split.
  - intros e s He. rewrite lines_logged, He. apply app_nil_r.
  - intros s. unfold lines. cbn. rewrite filter_app.
    rewrite filter_cons_False by discriminate. apply app_nil_r.
Qed.

Section framed_facts.

Context {X : Type} (f : state -> X) (Hf : framed f).

Lemma keeps_emit (e : event) : isPrintln e = false -> keeps f (emit e).
Proof. intros He s. now apply (proj1 Hf). Qed.

Lemma keeps_call {A} (e : event) (r : error + A) :
  isPrintln e = false -> keeps f (call e r).
Proof.
  intros He. unfold call. apply keeps_bind; [now apply keeps_emit |].
  intros []. destruct r; [apply keeps_raise | apply keeps_ret].
Qed.

Lemma keeps_time_Now (w : World) : keeps f (time_Now w).
Proof. intros s. apply (proj2 Hf). Qed.

Lemma keeps_readPayload (w : World) (filename : string) :
  keeps f (jwt.readPayload w filename).
Proof.
  unfold jwt.readPayload.
  destruct (String.eqb filename ""); [| destruct (String.eqb filename "-")].
  - apply keeps_bind; [apply keeps_wrapErr, keeps_call; reflexivity |].
    intros st. destruct ((fst st =? 0) && negb (snd st)); [apply keeps_ret |].
    apply keeps_bind; [apply keeps_emit; reflexivity |].
    intros _. apply keeps_wrapErr, keeps_lift.
  - apply keeps_bind; [apply keeps_emit; reflexivity |].
    intros _. apply keeps_wrapErr, keeps_lift.
  - apply keeps_bind; [apply keeps_wrapErr, keeps_call; reflexivity |].
    intros b. apply keeps_wrapErr, keeps_lift.
Qed.

Lemma keeps_readArgs (w : World) (ctx : cli.Context) : keeps f (jwt.readArgs w ctx).
Proof.
  unfold jwt.readArgs. destruct (cli.Args ctx) as [| a [| a' rest]];
    [apply keeps_readPayload | apply keeps_readPayload | apply keeps_raise].
Qed.

Lemma keeps_validateKeyFlags (key jwks kid : string) :
  keeps f (jwt.validateKeyFlags key jwks kid).
Proof.
  unfold jwt.validateKeyFlags.
  repeat match goal with |- keeps _ (if ?c then _ else _) => destruct c end;
    first [apply keeps_raise | apply keeps_ret].
Qed.

Lemma keeps_readKey (w : World) (key jwks : string) (options : list joseOption) :
  keeps f (jwt.readKey w key jwks options).
Proof.
  unfold jwt.readKey, jose.ParseKey, jose.ParseKeySet.
  repeat match goal with |- keeps _ (if ?c then _ else _) => destruct c end;
    first [apply keeps_raise | apply keeps_call; reflexivity].
Qed.

Lemma keeps_checkKey (w : World) (jwk : JSONWebKey) : keeps f (jwt.checkKey w jwk).
Proof.
  unfold jwt.checkKey, jose.ValidateJWK.
  repeat match goal with |- keeps _ (if ?c then _ else _) => destruct c end;
    try apply keeps_raise.
  destruct (jose_ValidateJWK w jwk); [apply keeps_raise | apply keeps_ret].
Qed.

Lemma keeps_validateExp (w : World) (ctx : cli.Context) :
  keeps f (jwt.validateExp w ctx).
Proof.
  unfold jwt.validateExp.
  destruct (negb (cli.Bool ctx "subtle") && cli.IsSet ctx "exp"); [| apply keeps_ret].
  apply keeps_bind; [apply keeps_time_Now |].
  intros now. destruct (jose.Before _ now); [apply keeps_raise | apply keeps_ret].
Qed.

Lemma keeps_validateClaims (w : World) (isSubtle : bool) (c : jose.Claims) :
  keeps f (jwt.validateClaims w isSubtle c).
Proof.
  unfold jwt.validateClaims.
  destruct (negb isSubtle); [| apply keeps_ret].
  repeat match goal with |- keeps _ (if ?c then _ else _) => destruct c end;
    try apply keeps_raise.
  apply keeps_bind; [apply keeps_time_Now |].
  intros now. destruct (jose.Before _ now); [apply keeps_raise | apply keeps_ret].
Qed.

Lemma keeps_newSigner (w : World) (ctx : cli.Context) (jwk : JSONWebKey) :
  keeps f (jwt.newSigner w ctx jwk).
Proof.
  unfold jwt.newSigner, jose.NewSigner. apply keeps_wrapErr.
  destruct (jose_NewSigner w _ _); [apply keeps_raise | apply keeps_ret].
Qed.

Lemma keeps_Sign (w : World) (b : jose.Builder) : keeps f (jose.Sign w b).
Proof.
  unfold jose.Sign.
  apply keeps_bind; [apply keeps_lift |]. intros raw.
  apply keeps_bind; [apply keeps_lift |]. intros hdr.
  apply keeps_bind; [apply keeps_call; reflexivity |]. intros sig.
  apply keeps_ret.
Qed.

(** The claims are built without a change when no identifier is drawn,
    or when the drawing does not change the component either. *)
Lemma keeps_addClaims (w : World) (ctx : cli.Context) :
  String.eqb (cli.String ctx "jti") "" && cli.IsSet ctx "jti" = false
  \/ (forall bound, keeps f (rand_Int_below w bound)) ->
  keeps f (jwt.addClaims w ctx).
Proof.
  intros Hjti. unfold jwt.addClaims.
  apply keeps_bind; [apply keeps_time_Now |]. intros now.
  apply keeps_bind; [| intros id; apply keeps_ret].
  cbn [jose.ID].
  destruct (String.eqb (cli.String ctx "jti") "" && cli.IsSet ctx "jti") eqn:Hc;
    [| apply keeps_ret].
  destruct Hjti as [Hjti | Hrand]; [discriminate |].
  apply keeps_wrapErr. unfold randutil.Hex.
  generalize 40%nat. intros n. induction n as [| n IH]; cbn [randutil.String'].
  - apply keeps_ret.
  - apply keeps_bind; [apply keeps_wrapErr, Hrand |]. intros num.
    apply keeps_bind; [exact IH |]. intros rest. apply keeps_ret.
Qed.

Lemma keeps_signBuilder (w : World) (ctx : cli.Context) :
  String.eqb (cli.String ctx "jti") "" && cli.IsSet ctx "jti" = false
  \/ (forall bound, keeps f (rand_Int_below w bound)) ->
  keeps f (jwt.signBuilder w ctx).
Proof.
  intros Hjti. unfold jwt.signBuilder, jwt.prepare.
  apply keeps_bind.
  - apply keeps_bind; [apply keeps_readArgs |]. intros payload.
    apply keeps_bind; [apply keeps_validateKeyFlags |]. intros _.
    apply keeps_bind; [apply keeps_readKey |]. intros jwk.
    apply keeps_bind; [apply keeps_checkKey |]. intros _.
    apply keeps_bind; [apply keeps_validateExp |]. intros _.
    apply keeps_bind; [now apply keeps_addClaims |]. intros c.
    apply keeps_ret.
  - intros [[payload jwk] c].
    apply keeps_bind; [apply keeps_validateClaims |]. intros _.
    apply keeps_bind; [apply keeps_newSigner |]. intros signer.
    apply keeps_ret.
Qed.

End framed_facts.



Lemma keeps_lines_rand (w : World) (bound : Z) : keeps lines (rand_Int_below w bound).
Proof.
  intros s. unfold rand_Int_below, lines.
  destruct (rand_Int w (st_draws s) bound); cbn; rewrite filter_app;
    (rewrite filter_cons_False by discriminate); apply app_nil_r.
Qed.

Lemma keeps_lines_signBuilder (w : World) (ctx : cli.Context) :
  keeps lines (jwt.signBuilder w ctx).
Proof.
  apply (keeps_signBuilder _ framed_lines). right. apply keeps_lines_rand.
Qed.

Lemma keeps_lines_CompactSerialize (w : World) (b : jose.Builder) :
  keeps lines (wrapErr (fun err => ErrWrap err "error serializing JWT")
                 (jose.CompactSerialize w b)).
Proof.
  apply keeps_wrapErr. unfold jose.CompactSerialize.
  apply keeps_bind; [apply (keeps_Sign _ framed_lines) |].
  intros t. apply keeps_ret.
Qed.

(** X20.  The sign command prints all or nothing.  A run that succeeds
    prints exactly one line, the compact serialization of the token it
    signed, as its last action; a run that fails or panics prints
    nothing at all, at whatever step it stops. *)
Theorem signAction_prints_all_or_nothing
    (w : World) (ctx : cli.Context) (s : state) :
  (forall s', jwt.signAction w ctx s = (Ok tt, s') ->
     exists t, signs w ctx s t
               /\ lines s' = lines s ++ [EvPrintln (jose.compact t)]
               /\ last (st_trace s') = Some (EvPrintln (jose.compact t)))
  /\ (forall r s', jwt.signAction w ctx s = (r, s') -> r <> Ok tt ->
                   lines s' = lines s).
Proof.
  split.
  - intros s' Hrun.
    destruct (signAction_Ok_signs _ _ _ _ Hrun) as (t & Hs & Hlast).
    exists t. split; [exact Hs |]. split; [| exact Hlast].
    destruct Hs as (b & s1 & s2 & Hb & Ht & Hrun').
    rewrite Hrun in Hrun'. inversion Hrun'; subst s'; clear Hrun'.
    rewrite lines_logged. cbn [isPrintln]. f_equal.
    pose proof (keeps_Sign _ framed_lines w b s1) as H2. rewrite Ht in H2.
    pose proof (keeps_lines_signBuilder w ctx s) as H1. rewrite Hb in H1.
    cbn in H1, H2. congruence.
  - intros r s' Hrun Hr. unfold jwt.signAction in Hrun.
    pose proof (keeps_lines_signBuilder w ctx s) as H1.
    unfold bind at 1 in Hrun.
    destruct (jwt.signBuilder w ctx s) as [[b | e | msg] s1]; cbn in H1;
      try (inversion Hrun; subst; exact H1).
    pose proof (keeps_lines_CompactSerialize w b s1) as H2.
    unfold bind at 1 in Hrun.
    destruct (wrapErr _ (jose.CompactSerialize w b) s1) as [[raw | e | msg] s2];
      cbn in H2; inversion Hrun; subst; congruence.
Qed.

Lemma signAction_prints_all_or_nothing_witness :
  let w := scenario.world (scenario.caConfig [] []) ∅ (61 * jose.nanosecond) in
  let ctx := scenario.context []
               [("key", cli.VString "key.pem"); ("iss", cli.VString "issuer");
                ("sub", cli.VString "subject"); ("aud", cli.VStringSlice ["a"]);
                ("exp", cli.VInt64 60)] in
  lines (snd (jwt.signAction w ctx initial)) = [].
Proof.
  intros w ctx.
  destruct (signAction_prints_all_or_nothing w ctx initial) as [_ H].
  apply (H (fst (jwt.signAction w ctx initial))).
  - now destruct (jwt.signAction w ctx initial).
  - vm_compute. discriminate.
Defined.

(* ===================================================================== *)
(** * Further properties of the loaded authority                          *)
(* ===================================================================== *)

(** X21.  What [newOfflineCA] returns is a faithful copy of the file: the
    configuration is the one decoded from the file that was read, the
    authority is the one built from it by [authority.New], which
    accepted it, and the path is kept.  It always has at least one
    provisioner, so [Provisioners] on a loaded authority returns a
    non-empty list and never dereferences nil.  Loading makes two
    outside calls, the reading of the file and then [authority.New]. *)
Theorem newOfflineCA_loaded
    (w : World) (configFile : string) (s s' : state) (c : ca.offlineCA) :
  ca.newOfflineCA w configFile s = (Ok c, s') ->
  (exists b, fs_ReadFile w configFile = inr b
             /\ json_Unmarshal_Config w b = inr (ca.config c))
  /\ authority_New w (ca.config c) = None
  /\ ca.authority c = {| authority.auth_config := ca.config c |}
  /\ ca.configFile c = configFile
  /\ (exists p ps, ca.Provisioners c = Ok (p :: ps))
  /\ s' = logged (EvAuthorityNew (ca.config c)) (logged (EvReadFile configFile) s).
Proof.
  unfold ca.newOfflineCA. intros H.
  apply bind_Ok_inv in H as (b & s1 & Hread & H).
  apply call_Ok_inv in Hread as [Hread ->].
  apply bind_Ok_inv in H as (config & s2 & Hdec & H).
  apply wrapErr_Ok_inv in Hdec. unfold lift in Hdec.
  destruct (json_Unmarshal_Config w b) as [e | config'] eqn:Hcfg;
    [discriminate | inversion Hdec; subst config' s2; clear Hdec].
  destruct (ca.noProvisioners config) eqn:Hno; [discriminate |].
  apply bind_Ok_inv in H as ([] & s3 & Hnew & H).
  inversion H; subst c s'; clear H. cbn.
  unfold callErr, bind, emit in Hnew.
  destruct (authority_New w config) eqn:Hauth; cbn in Hnew; [discriminate |].
  inversion Hnew; subst s3; clear Hnew.
  split; [eauto |]. repeat (split; [reflexivity |]).
  split; [| reflexivity].
  unfold ca.noProvisioners in Hno. unfold ca.Provisioners. cbn.
  destruct (authority.AuthorityConfig config) as [ac |]; [| discriminate].
  destruct (authority.Provisioners ac) as [| p ps]; [discriminate | eauto].
Qed.

Lemma newOfflineCA_loaded_witness :
  let config := scenario.caConfig ["ca.example.com"] [scenario.admin] in
  ca.Provisioners (host.offline ["ca.example.com"] [scenario.admin])
  = Ok [scenario.admin]
  /\ authority_New (scenario.world config ∅ 0) config = None.
Proof.
  intros config.
  destruct (newOfflineCA_loaded (scenario.world config ∅ 0) "ca.json" initial
              (logged (EvAuthorityNew config) (logged (EvReadFile "ca.json") initial))
              (host.offline ["ca.example.com"] [scenario.admin]))
    as (_ & Hnew & _ & _ & (p & ps & Hps) & _).
  - reflexivity.
  - split; [reflexivity | exact Hnew].
Defined.

Lemma append_inj_l (p a b : string) : p +:+ a = p +:+ b -> a = b.
Proof. apply String.app_inj. Qed.

Lemma append_assoc (a b c : string) : (a +:+ b) +:+ c = a +:+ (b +:+ c).
Proof.
  induction a as [| ch a IH]; [reflexivity |].
  change (String ch ((a +:+ b) +:+ c) = String ch (a +:+ (b +:+ c))).
  now rewrite IH.
Qed.

(** X22.  The audience of a token is the URL of the CA followed by the
    path of the operation, "/revoke" for the revoke token type and
    "/sign" for every other type.  So the audience of a revocation
    token is never the audience of a token of another type: a token
    made for signing does not carry the audience that revocation asks
    for. *)
Theorem Audience_separates_operations (c : ca.offlineCA) (typ : Z) :
  (forall a, ca.Audience c typ = Ok a <->
             exists url, ca.CaURL c = Ok url /\
                         a = url +:+ (if typ =? ca.revokeType then "/revoke"
                                      else "/sign"))
  /\ (typ <> ca.revokeType ->
      forall a, ca.Audience c typ = Ok a -> ca.Audience c ca.revokeType <> Ok a)
  /\ (typ <> ca.revokeType -> ca.Audience c typ = ca.Audience c ca.signType).
Proof.
  unfold ca.Audience, ca.CaURL.
  destruct (ca.firstDNSName c) as [name | e | msg].
  - split; [| split].
    + intros a. destruct (typ =? ca.revokeType); split.
      * intros H. inversion H. exists ("https://" +:+ name).
        split; [reflexivity |]. now rewrite append_assoc.
      * intros (url & Hu & ->). inversion Hu. now rewrite append_assoc.
      * intros H. inversion H. exists ("https://" +:+ name).
        split; [reflexivity |]. now rewrite append_assoc.
      * intros (url & Hu & ->). inversion Hu. now rewrite append_assoc.
    + intros Hne a. destruct (Z.eqb_spec typ ca.revokeType); [contradiction |].
      cbn. intros H H'. rewrite <- H in H'. inversion H' as [H0].
      apply append_inj_l in H0. apply append_inj_l in H0. discriminate H0.
    + intros Hne. destruct (Z.eqb_spec typ ca.revokeType); [contradiction |].
      reflexivity.
  - split; [| split].
    + intros a. destruct (typ =? ca.revokeType); split;
        try discriminate; intros (url & Hu & _); discriminate.
    + intros Hne a. destruct (typ =? ca.revokeType); discriminate.
    + intros Hne. now destruct (typ =? ca.revokeType).
  - split; [| split].
    + intros a. destruct (typ =? ca.revokeType); split;
        try discriminate; intros (url & Hu & _); discriminate.
    + intros Hne a. destruct (typ =? ca.revokeType); discriminate.
    + intros Hne. now destruct (typ =? ca.revokeType).
Qed.

Lemma Audience_separates_operations_witness :
  ca.Audience (host.offline ["ca.example.com"] []) ca.revokeType
  <> Ok "https://ca.example.com/sign".
Proof.
  destruct (Audience_separates_operations (host.offline ["ca.example.com"] [])
              ca.signType) as (_ & H & _).
  apply H; [discriminate | reflexivity].
Defined.
